(** * AIS tracker: the stream-ingestion pipeline of [index.js]

    A shallow embedding of the message handler of [connectAIS], of
    [cleanupOldData] and of the [/api/positions] route, with the two
    tables they write to, and the properties of the specification that
    concern them; then of the rest of the server: [connectWithRetry],
    [initDatabase], the callback of [app.listen], the handlers that
    [connectAIS] registers on the socket, and the four routes.

    Conventions of the model.
    - A JavaScript number is an exact rational ([Q]) or [NaN]; binary64
      rounding, infinities and the sign of zero are not represented.
    - A JavaScript string is a [string], one [ascii] per code unit; code
      units above 255 are outside the model.
    - PostgreSQL is an external collaborator: a statement is either
      rejected (the promise of [pool.query] rejects) or applied to the
      tables as its SQL text says.  Which statements are rejected, the
      value of [NOW()], the measured database size and the JSON parser
      are parameters of the development. *)

From Stdlib Require Import ZArith QArith Qround String Ascii List Lia.
From Stdlib Require Qcanon.
From stdpp Require Import gmap strings list sorting pretty.

Local Open Scope string_scope.
Local Open Scope Z_scope.
Set Warnings "-register-all".

(** ** JavaScript values and the operators the program uses *)

Module JS.

Inductive exn :=
| SyntaxError      (* JSON.parse on malformed text *)
| TypeError        (* property read on null or undefined *)
| DatabaseError.   (* a rejected pool.query *)

(** The outcome of evaluating an expression or running a statement. *)
Inductive completion (A : Type) :=
| Return (a : A)
| Throw (e : exn).
Arguments Return {A} a.
Arguments Throw {A} e.

Definition bind {A B} (c : completion A) (k : A -> completion B) : completion B :=
  match c with
  | Return a => k a
  | Throw e => Throw e
  end.

Inductive number :=
| NaN
| Fin (q : Q).

Inductive value :=
| Undefined
| Null
| Bool (b : bool)
| Num (n : number)
| Str (s : string)
| Arr (elems : list value)
| Obj (props : list (string * value)).

Definition int (z : Z) : value := Num (Fin (inject_Z z)).

(** ToBoolean: the falsy values are undefined, null, false, 0, NaN
    and the empty string. *)
Definition number_truthy (n : number) : bool :=
  match n with
  | NaN => false
  | Fin q => negb (Qeq_bool q 0)
  end.

Definition ToBoolean (v : value) : bool :=
  match v with
  | Undefined | Null => false
  | Bool b => b
  | Num n => number_truthy n
  | Str s => negb (String.eqb s "")
  | Arr _ | Obj _ => true
  end.

(** Expressions evaluate to a completion; a variable or a literal is
    an expression that returns. *)
Definition expr := completion value.
Definition lit (v : value) : expr := Return v.

(** Own-property lookup in a parsed object, whose keys the parser lists
    once each. *)
Fixpoint own (k : string) (props : list (string * value)) : value :=
  match props with
  | [] => Undefined
  | (k', v) :: rest => if String.eqb k k' then v else own k rest
  end.

(** [v.k].  None of the property names the program reads is inherited
    from a prototype, so on a primitive or an array the read gives
    undefined. *)
Definition get (v : value) (k : string) : completion value :=
  match v with
  | Undefined | Null => Throw TypeError
  | Obj props => Return (own k props)
  | _ => Return Undefined
  end.

(** [v?.k] *)
Definition get_opt (v : value) (k : string) : completion value :=
  match v with
  | Undefined | Null => Return Undefined
  | _ => get v k
  end.

(** [a || b] and [a && b]; the right operand is only looked at when
    the left one does not decide. *)
Definition or (a b : expr) : expr :=
  bind a (fun x => if ToBoolean x then Return x else b).

Definition and (a b : expr) : expr :=
  bind a (fun x => if ToBoolean x then b else Return x).

(** [a === 'literal'] *)
Definition strict_eq_str (v : value) (s : string) : bool :=
  match v with
  | Str s' => String.eqb s' s
  | _ => false
  end.

(** *** Number to string *)

Definition digits (n : Z) : string := pretty (Z.to_N n).

Fixpoint strip_zeros (fuel : nat) (m : Z) (z : Z) : Z * Z :=
  match fuel with
  | O => (m, z)
  | S fuel' =>
      if (0 <? m) && (m mod 10 =? 0) then strip_zeros fuel' (m / 10) (z + 1)
      else (m, z)
  end.

Fixpoint scale (fuel : nat) (a d : Z) (e : Z) : Z :=
  match fuel with
  | O => e
  | S fuel' => if (a * 10 ^ e) mod d =? 0 then e else scale fuel' a d (e + 1)
  end.

Definition zeros (n : Z) : string := String.concat "" (repeat "0" (Z.to_nat n)).

(** Number::toString(x) for radix 10 on an exact decimal: with [s] the
    significant digits, [k] their count and [n] the position of the
    decimal point, the value is [s * 10^(n-k)].  Every number of a JSON
    text is such a decimal; a rational that is not one is cut after 400
    fractional digits. *)
Definition positive_toString (q : Q) : string :=
  let a := Qnum q in
  let d := Z.pos (Qden q) in
  let e := scale 400 a d 0 in
  let '(s, z) := strip_zeros 2000 (a * 10 ^ e / d) 0 in
  let ds := digits s in
  let k := Z.of_nat (String.length ds) in
  let n := k + z - e in
  if (k <=? n) && (n <=? 21) then ds ++ zeros (n - k)
  else if (0 <? n) && (n <=? 21) then
    substring 0 (Z.to_nat n) ds ++ "." ++ substring (Z.to_nat n) (Z.to_nat (k - n)) ds
  else if (-6 <? n) && (n <=? 0) then "0." ++ zeros (- n) ++ ds
  else
    let ex := (if 0 <? n - 1 then "+" else "-") ++ digits (Z.abs (n - 1)) in
    if k =? 1 then ds ++ "e" ++ ex
    else substring 0 1 ds ++ "." ++ substring 1 (Z.to_nat (k - 1)) ds ++ "e" ++ ex.

Definition Number_toString (n : number) : string :=
  match n with
  | NaN => "NaN"
  | Fin q =>
      if Qeq_bool q 0 then "0"
      else if Qnum q <? 0 then "-" ++ positive_toString (Qopp q)
      else positive_toString q
  end.

(** *** ToPrimitive, ToString, ToNumber *)

(** ToString; an array is joined with commas, null and undefined
    elements giving the empty string, and a plain object gives
    "[object Object]". *)
Fixpoint ToString (v : value) : string :=
  match v with
  | Undefined => "undefined"
  | Null => "null"
  | Bool true => "true"
  | Bool false => "false"
  | Num n => Number_toString n
  | Str s => s
  | Arr elems =>
      (fix join (l : list value) : string :=
         match l with
         | [] => ""
         | x :: rest =>
             let sx := match x with
                       | Undefined | Null => ""
                       | _ => ToString x
                       end in
             match rest with
             | [] => sx
             | _ :: _ => sx ++ "," ++ join rest
             end
         end) elems
  | Obj _ => "[object Object]"
  end.

(** [String(v)] and the interpolation of [v] in a template literal. *)
Definition String (v : value) : string := ToString v.

(** ToPrimitive (default hint) of a parsed value. *)
Definition ToPrimitive (v : value) : value :=
  match v with
  | Arr _ | Obj _ => Str (ToString v)
  | _ => v
  end.

(** ToNumber on undefined, null, booleans and numbers, the only
    primitives that reach it; a string never does (see [add] and
    [exec]). *)
Definition ToNumber (v : value) : number :=
  match v with
  | Null | Bool false => Fin 0
  | Bool true => Fin 1
  | Num n => n
  | _ => NaN
  end.

Definition number_add (x y : number) : number :=
  match x, y with
  | Fin a, Fin b => Fin (a + b)
  | _, _ => NaN
  end.

Definition number_mul (x y : number) : number :=
  match x, y with
  | Fin a, Fin b => Fin (a * b)
  | _, _ => NaN
  end.

Definition number_div (x y : number) : number :=
  match x, y with
  | Fin a, Fin b => if Qeq_bool b 0 then NaN else Fin (a / b)
  | _, _ => NaN
  end.

(** [x > y]; false as soon as one side is NaN. *)
Definition number_gt (x y : number) : bool :=
  match x, y with
  | Fin a, Fin b => negb (Qle_bool a b)
  | _, _ => false
  end.

(** [a + b]: concatenation when a primitive operand is a string,
    numeric addition otherwise. *)
Definition add (a b : value) : value :=
  let pa := ToPrimitive a in
  let pb := ToPrimitive b in
  match pa, pb with
  | Str s, _ => Str (s ++ ToString pb)
  | _, Str s => Str (ToString pa ++ s)
  | _, _ => Num (number_add (ToNumber pa) (ToNumber pb))
  end.

Definition Math_ceil (x : number) : number :=
  match x with
  | NaN => NaN
  | Fin q => Fin (inject_Z (Qceiling q))
  end.

(** *** parseInt *)

Definition code (c : ascii) : Z := Z.of_N (N_of_ascii c).

(** StrWhiteSpaceChar, among the code units of the model. *)
Definition is_white_space (c : ascii) : bool :=
  let n := code c in
  ((9 <=? n) && (n <=? 13)) || (n =? 32) || (n =? 160).

Fixpoint trim_start (s : string) : string :=
  match s with
  | String.String c rest => if is_white_space c then trim_start rest else s
  | EmptyString => s
  end.

(** The value of [c] as a digit of the given radix, if it is one. *)
Definition digit_value (radix : Z) (c : ascii) : option Z :=
  let n := code c in
  let d := if (48 <=? n) && (n <=? 57) then n - 48
           else if (97 <=? n) && (n <=? 122) then n - 87
           else if (65 <=? n) && (n <=? 90) then n - 55
           else radix in
  if d <? radix then Some d else None.

(** The longest prefix of digits, read most significant digit first;
    [None] when [s] does not start with a digit. *)
Fixpoint read_digits (radix : Z) (acc : option Z) (s : string) : option Z :=
  match s with
  | String.String c rest =>
      match digit_value radix c with
      | Some d => read_digits radix (Some (radix * default 0 acc + d)) rest
      | None => acc
      end
  | EmptyString => acc
  end.

Definition strip_sign (s : string) : Z * string :=
  match s with
  | String.String "-" rest => (-1, rest)
  | String.String "+" rest => (1, rest)
  | _ => (1, s)
  end.

Definition strip_radix (s : string) : Z * string :=
  match s with
  | String.String "0" (String.String "x" rest)
  | String.String "0" (String.String "X" rest) => (16, rest)
  | _ => (10, s)
  end.

(** [parseInt(v)] with no radix argument. *)
Definition parseInt (v : value) : number :=
  let '(sign, s) := strip_sign (trim_start (ToString v)) in
  let '(radix, s) := strip_radix s in
  match read_digits radix None s with
  | None => NaN
  | Some n => Fin (inject_Z (sign * n))
  end.

(** *** String methods *)

Definition lower (c : ascii) : ascii :=
  let n := code c in
  if ((65 <=? n) && (n <=? 90)) || ((192 <=? n) && (n <=? 222) && negb (n =? 215))
  then ascii_of_N (Z.to_N (n + 32)) else c.

Fixpoint toLowerCase (s : string) : string :=
  match s with
  | String.String c rest => String.String (lower c) (toLowerCase rest)
  | EmptyString => EmptyString
  end.

Fixpoint includes (s sub : string) : bool :=
  String.prefix sub s ||
  match s with
  | String.String _ rest => includes rest sub
  | EmptyString => false
  end.

End JS.

Import JS.

Coercion lit : value >-> expr.

Definition member (e : expr) (k : string) : expr := bind e (fun v => get v k).
Definition member_opt (e : expr) (k : string) : expr := bind e (fun v => get_opt v k).
Definition strict_eq (e : expr) (s : string) : expr :=
  bind e (fun v => Return (Bool (strict_eq_str v s))).
Definition String_of (e : expr) : completion string :=
  bind e (fun v => Return (JS.String v)).
Definition plus (a b : expr) : expr :=
  bind a (fun x => bind b (fun y => Return (add x y))).

Notation "e ~> k" := (member e k) (at level 15, left associativity).
Notation "e ?~> k" := (member_opt e k) (at level 15, left associativity).
Notation "e === s" := (strict_eq e s) (at level 30, no associativity).
Notation "a &&& b" := (JS.and a b) (at level 40, left associativity).
Notation "a ||| b" := (JS.or a b) (at level 50, left associativity).

(** ** The tables

    A cell holds the parameter that was bound to its column ([Null] for
    SQL NULL); timestamps are microseconds. *)

Module Vessel.
Record row := {
  mmsi : string;                       (* TEXT PRIMARY KEY *)
  name : value;
  vessel_type : value;
  callsign : value;
  imo : value;
  flag : value;
  length : value;
  width : value;
  last_latitude : value;
  last_longitude : value;
  last_speed : value;
  last_heading : value;
  last_position_time : option Z;
  updated_at : option Z                (* DEFAULT NOW() *)
}.
End Vessel.

Module Position.
Record row := {
  id : Z;                              (* SERIAL PRIMARY KEY *)
  mmsi : string;
  vessel_name : value;
  latitude : value;
  longitude : value;
  speed : value;
  heading : value;
  course : value;
  nav_status : string;
  timestamp : Z;
  message_type : string;
  created_at : Z                       (* DEFAULT NOW() *)
}.

(** ORDER BY created_at ASC *)
Definition older (a b : row) : Prop := created_at a <= created_at b.
End Position.

Global Instance older_dec : RelDecision Position.older.
Proof. intros a b. unfold Position.older. apply _. Defined.

Record Database := {
  vessels : gmap string Vessel.row;
  ais_positions : list Position.row;
  ais_positions_id_seq : Z
}.

(** ** Statements sent through [pool.query] *)

Inductive Stmt :=
| insert_position
    (mmsi : string) (vessel_name latitude longitude speed heading course : value)
    (nav_status message_type : string)
| upsert_vessel_position
    (mmsi : string) (name last_latitude last_longitude last_speed last_heading : value)
| upsert_vessel_static
    (mmsi : string) (name callsign imo : value) (vessel_type : string)
    (length width : value)
| delete_older_than_48_hours
| select_database_size
| select_count_positions
| delete_oldest (limit : value).

Record QueryResult := {
  rowCount : Z;
  rows : list value
}.

Definition hours (n : Z) : Z := n * 3600 * 1000000.

(** The value of a LIMIT parameter: a non-negative integer. *)
Definition limit_of (v : value) : option nat :=
  match v with
  | Num (Fin q) =>
      if (Z.pos (Qden (Qred q)) =? 1) && (0 <=? Qnum (Qred q))
      then Some (Z.to_nat (Qnum (Qred q))) else None
  | _ => None
  end.

Definition row_count (before after : list Position.row) : Z :=
  Z.of_nat (List.length before) - Z.of_nat (List.length after).

(** INSERT INTO vessels (mmsi, name, last_latitude, last_longitude,
    last_speed, last_heading, last_position_time, updated_at) ...
    ON CONFLICT (mmsi) DO UPDATE SET the last six: the row that results,
    from the row found under the key, if any. *)
Definition upsert_position_row (now : Z) (mmsi : string)
    (name lat lon spd hdg : value) (found : option Vessel.row) : Vessel.row :=
  match found with
  | None =>
      {| Vessel.mmsi := mmsi; Vessel.name := name;
         Vessel.vessel_type := Null; Vessel.callsign := Null;
         Vessel.imo := Null; Vessel.flag := Null;
         Vessel.length := Null; Vessel.width := Null;
         Vessel.last_latitude := lat; Vessel.last_longitude := lon;
         Vessel.last_speed := spd; Vessel.last_heading := hdg;
         Vessel.last_position_time := Some now;
         Vessel.updated_at := Some now |}
  | Some old =>
      {| Vessel.mmsi := Vessel.mmsi old; Vessel.name := Vessel.name old;
         Vessel.vessel_type := Vessel.vessel_type old;
         Vessel.callsign := Vessel.callsign old;
         Vessel.imo := Vessel.imo old; Vessel.flag := Vessel.flag old;
         Vessel.length := Vessel.length old; Vessel.width := Vessel.width old;
         Vessel.last_latitude := lat; Vessel.last_longitude := lon;
         Vessel.last_speed := spd; Vessel.last_heading := hdg;
         Vessel.last_position_time := Some now;
         Vessel.updated_at := Some now |}
  end.

(** INSERT INTO vessels (mmsi, name, callsign, imo, vessel_type, length,
    width, updated_at) ... ON CONFLICT (mmsi) DO UPDATE SET the last
    seven. *)
Definition upsert_static_row (now : Z) (mmsi : string)
    (name callsign imo : value) (vessel_type : string) (length width : value)
    (found : option Vessel.row) : Vessel.row :=
  match found with
  | None =>
      {| Vessel.mmsi := mmsi; Vessel.name := name;
         Vessel.vessel_type := Str vessel_type; Vessel.callsign := callsign;
         Vessel.imo := imo; Vessel.flag := Null;
         Vessel.length := length; Vessel.width := width;
         Vessel.last_latitude := Null; Vessel.last_longitude := Null;
         Vessel.last_speed := Null; Vessel.last_heading := Null;
         Vessel.last_position_time := None;
         Vessel.updated_at := Some now |}
  | Some old =>
      {| Vessel.mmsi := Vessel.mmsi old; Vessel.name := name;
         Vessel.vessel_type := Str vessel_type; Vessel.callsign := callsign;
         Vessel.imo := imo; Vessel.flag := Vessel.flag old;
         Vessel.length := length; Vessel.width := width;
         Vessel.last_latitude := Vessel.last_latitude old;
         Vessel.last_longitude := Vessel.last_longitude old;
         Vessel.last_speed := Vessel.last_speed old;
         Vessel.last_heading := Vessel.last_heading old;
         Vessel.last_position_time := Vessel.last_position_time old;
         Vessel.updated_at := Some now |}
  end.

(** What a statement that PostgreSQL accepts does to the tables at
    time [now]; [size] is the value of pg_database_size.  [None] is an
    error raised by the statement itself.  The driver hands a bigint
    (size, count) over as decimal text, which [/] and [*] turn back into
    the number; the result rows here hold the number. *)
Definition exec (now size : Z) (s : Stmt) (d : Database) : option (QueryResult * Database) :=
  match s with
  | insert_position mmsi vessel_name latitude longitude speed heading course
      nav_status message_type =>
      let r := {| Position.id := ais_positions_id_seq d;
                  Position.mmsi := mmsi;
                  Position.vessel_name := vessel_name;
                  Position.latitude := latitude;
                  Position.longitude := longitude;
                  Position.speed := speed;
                  Position.heading := heading;
                  Position.course := course;
                  Position.nav_status := nav_status;
                  Position.timestamp := now;
                  Position.message_type := message_type;
                  Position.created_at := now |} in
      Some ({| rowCount := 1; rows := [] |},
            {| vessels := vessels d;
               ais_positions := (ais_positions d ++ [r])%list;
               ais_positions_id_seq := ais_positions_id_seq d + 1 |})
  | upsert_vessel_position mmsi name lat lon spd hdg =>
      let r := upsert_position_row now mmsi name lat lon spd hdg (vessels d !! mmsi) in
      Some ({| rowCount := 1; rows := [] |},
            {| vessels := <[mmsi := r]> (vessels d);
               ais_positions := ais_positions d;
               ais_positions_id_seq := ais_positions_id_seq d |})
  | upsert_vessel_static mmsi name callsign imo vessel_type length width =>
      let r := upsert_static_row now mmsi name callsign imo vessel_type length width
                 (vessels d !! mmsi) in
      Some ({| rowCount := 1; rows := [] |},
            {| vessels := <[mmsi := r]> (vessels d);
               ais_positions := ais_positions d;
               ais_positions_id_seq := ais_positions_id_seq d |})
  | delete_older_than_48_hours =>
      (* WHERE created_at < NOW() - INTERVAL '48 hours' *)
      let kept := filter (fun r => ¬ (Position.created_at r < now - hours 48))
                         (ais_positions d) in
      Some ({| rowCount := row_count (ais_positions d) kept; rows := [] |},
            {| vessels := vessels d;
               ais_positions := kept;
               ais_positions_id_seq := ais_positions_id_seq d |})
  | select_database_size =>
      Some ({| rowCount := 1; rows := [Obj [("size", int size)]] |}, d)
  | select_count_positions =>
      Some ({| rowCount := 1;
               rows := [Obj [("count", int (Z.of_nat (List.length (ais_positions d))))]] |},
            d)
  | delete_oldest limit =>
      (* WHERE id IN (SELECT id FROM ais_positions ORDER BY created_at ASC LIMIT $1) *)
      match limit_of limit with
      | None => None
      | Some n =>
          let ids := Position.id <$> take n (merge_sort Position.older (ais_positions d)) in
          let kept := filter (fun r => Position.id r ∉ ids) (ais_positions d) in
          Some ({| rowCount := row_count (ais_positions d) kept; rows := [] |},
                {| vessels := vessels d;
                   ais_positions := kept;
                   ais_positions_id_seq := ais_positions_id_seq d |})
      end
  end.

(** ** The server *)

(** Lines written to the console: the text of the call and the values
    interpolated or passed along. *)
Inductive LogEntry :=
| log (text : string) (args : list value)
| error (text : string) (e : exn).

Record World := {
  db : Database;
  tx : nat;                      (* statements sent to the pool so far *)
  console : list LogEntry
}.

(** An async function body: it runs on the world and returns or throws. *)
Definition M (A : Type) : Type := World -> completion A * World.

Definition ret {A} (a : A) : M A := fun w => (Return a, w).

Definition bindM {A B} (c : M A) (k : A -> M B) : M B := fun w =>
  match c w with
  | (Return a, w') => k a w'
  | (Throw e, w') => (Throw e, w')
  end.

Notation "x <- c ;; k" := (bindM c (fun x => k))
  (at level 100, c at next level, k at level 200, right associativity).

Definition eval {A} (c : completion A) : M A := fun w => (c, w).
Definition eval_expr (e : expr) : M value := eval e.

Definition try_catch {A} (body : M A) (handler : exn -> M A) : M A := fun w =>
  match body w with
  | (Return a, w') => (Return a, w')
  | (Throw e, w') => handler e w'
  end.

Definition when (c : expr) (body : M unit) : M unit :=
  v <- eval_expr c ;; if ToBoolean v then body else ret tt.

Definition console_log (text : string) (args : list value) : M unit := fun w =>
  (Return tt, {| db := db w; tx := tx w; console := console w ++ [log text args] |}).

Definition console_error (text : string) (e : exn) : M unit := fun w =>
  (Return tt, {| db := db w; tx := tx w; console := console w ++ [error text e] |}).

(** The two revisions of the handler under src/ differ in the
    vessel_type parameter of the static upsert. *)
Inductive Revision :=
| index_js     (* src/index.js: yacht types are stored as 'yacht' *)
| part_001.    (* src/unnamed/part_001: the type is stored as reported *)

Section Server.

(** [NOW()] as seen by the n-th statement. *)
Variable clock : nat -> Z.
(** Whether PostgreSQL accepts the n-th statement. *)
Variable pg_accepts : nat -> Stmt -> bool.
Variable pg_database_size : Database -> Z.
(** [JSON.parse]; [None] when it throws. *)
Variable JSON_parse : string -> option value.
Variable rev : Revision.

Definition pool_query (s : Stmt) : M QueryResult := fun w =>
  let after d := {| db := d; tx := S (tx w); console := console w |} in
  if pg_accepts (tx w) s then
    match exec (clock (tx w)) (pg_database_size (db w)) s (db w) with
    | Some (r, d) => (Return r, after d)
    | None => (Throw DatabaseError, after (db w))
    end
  else (Throw DatabaseError, after (db w)).

Definition parse (data : string) : expr :=
  match JSON_parse data with
  | Some v => Return v
  | None => Throw SyntaxError
  end.

(** [`Vessel ${e}`] *)
Definition Vessel_template (e : expr) : expr :=
  bind (String_of e) (fun s => Return (Str ("Vessel " ++ s))).

Definition vessel_type_param (shipType : string) : string :=
  match rev with
  | part_001 => shipType
  | index_js =>
      let isYacht := String.eqb shipType "36" || String.eqb shipType "37"
                     || includes (toLowerCase shipType) "yacht" in
      if isYacht then "yacht" else shipType
  end.

(** [(d?.a || 0) + (d?.b || 0) || null] *)
Definition dimension (d : expr) (a b : string) : expr :=
  plus (d ?~> a ||| int 0) (d ?~> b ||| int 0) ||| Null.

(** The handler registered with [ws.on('message', ...)]: the block
    for position reports, then the block for static data, inside one
    try/catch. *)
Definition handlePositionReport (msg : value) : M unit :=
  when (msg ~> "MessageType" === "PositionReport"
        &&& msg ~> "Message" ?~> "PositionReport")
    (pos <- eval_expr (msg ~> "Message" ~> "PositionReport") ;;
     meta <- eval_expr (msg ~> "MetaData") ;;
     when (meta ?~> "MMSI" &&& pos ~> "Latitude" &&& pos ~> "Longitude")
       ((* Store position *)
        mmsi <- eval (String_of (meta ~> "MMSI")) ;;
        vessel_name <- eval_expr (meta ~> "ShipName" ||| Null) ;;
        latitude <- eval_expr (pos ~> "Latitude") ;;
        longitude <- eval_expr (pos ~> "Longitude") ;;
        speed <- eval_expr (pos ~> "Sog" ||| int 0) ;;
        heading <- eval_expr (pos ~> "TrueHeading" ||| int 0) ;;
        course <- eval_expr (pos ~> "Cog" ||| int 0) ;;
        nav_status <- eval (String_of (pos ~> "NavigationalStatus" ||| int 0)) ;;
        _ <- pool_query (insert_position mmsi vessel_name latitude longitude
                           speed heading course nav_status "PositionReport") ;;
        (* Update vessel *)
        mmsi <- eval (String_of (meta ~> "MMSI")) ;;
        name <- eval_expr (meta ~> "ShipName" ||| Vessel_template (meta ~> "MMSI")) ;;
        latitude <- eval_expr (pos ~> "Latitude") ;;
        longitude <- eval_expr (pos ~> "Longitude") ;;
        speed <- eval_expr (pos ~> "Sog" ||| int 0) ;;
        heading <- eval_expr (pos ~> "TrueHeading" ||| int 0) ;;
        _ <- pool_query (upsert_vessel_position mmsi name latitude longitude
                           speed heading) ;;
        ret tt)).

Definition handleShipStaticData (msg : value) : M unit :=
  when (msg ~> "MessageType" === "ShipStaticData"
        &&& msg ~> "Message" ?~> "ShipStaticData")
    (ship <- eval_expr (msg ~> "Message" ~> "ShipStaticData") ;;
     meta <- eval_expr (msg ~> "MetaData") ;;
     when (meta ?~> "MMSI")
       (shipType <- eval (String_of (ship ~> "Type" ||| Str "unknown")) ;;
        mmsi <- eval (String_of (meta ~> "MMSI")) ;;
        name <- eval_expr (ship ~> "Name" ||| meta ~> "ShipName"
                           ||| Vessel_template (meta ~> "MMSI")) ;;
        callsign <- eval_expr (ship ~> "CallSign" ||| Null) ;;
        imo <- eval_expr (bind (ship ~> "ImoNumber") (fun v =>
                            if ToBoolean v then Return (Str (JS.String v))
                            else Return Null)) ;;
        length <- eval_expr (dimension (ship ~> "Dimension") "A" "B") ;;
        width <- eval_expr (dimension (ship ~> "Dimension") "C" "D") ;;
        _ <- pool_query (upsert_vessel_static mmsi name callsign imo
                           (vessel_type_param shipType) length width) ;;
        ret tt)).

Definition onMessage (data : string) : M unit :=
  try_catch
    (msg <- eval_expr (parse data) ;;
     _ <- handlePositionReport msg ;;
     handleShipStaticData msg)
    (fun e => console_error "Error processing message:" e).

(** [result.rows[0].column] *)
Definition first_row (result : QueryResult) (column : string) : expr :=
  nth 0 (rows result) Undefined ~> column.

(** [cleanupOldData], run at start-up and every six hours: the block
    that deletes by age, then the block that deletes by size. *)
Definition delete_by_age : M unit :=
  (* Delete records older than 48 hours *)
  deleteResult <- pool_query delete_older_than_48_hours ;;
  console_log "Deleted ${deleteResult.rowCount} records older than 48 hours"
              [int (rowCount deleteResult)].

Definition delete_by_size : M unit :=
  (* Check database size *)
  sizeResult <- pool_query select_database_size ;;
  size <- eval_expr (first_row sizeResult "size") ;;
  let sizeGB := number_div (ToNumber size) (Fin (inject_Z (1024 * 1024 * 1024))) in
  _ <- console_log "Current database size: ${sizeGB.toFixed(2)} GB" [Num sizeGB] ;;
  (* If above 70GB, delete oldest records *)
  if number_gt sizeGB (Fin (inject_Z 70)) then
    _ <- console_log "Database size exceeds 70GB, deleting oldest records..." [] ;;
    targetRecords <- pool_query select_count_positions ;;
    count <- eval_expr (first_row targetRecords "count") ;;
    let toDelete := Math_ceil (number_mul (ToNumber count) (Fin (1 # 10))) in
    _ <- pool_query (delete_oldest (Num toDelete)) ;;
    console_log "Deleted ${toDelete} oldest records to reduce disk usage"
                [Num toDelete]
  else ret tt.

Definition cleanupOldData : M unit :=
  try_catch
    (_ <- console_log "Running data cleanup..." [] ;;
     _ <- delete_by_age ;;
     delete_by_size)
    (fun e => console_error "Cleanup error:" e).

End Server.

(** The text and the parameters that the [/api/positions] route passes
    to [pool.query], from [req.query]. *)
Definition api_positions_query (req_query : value) : completion (string * list value) :=
  bind (bind (req_query ~> "limit") (fun l => Num (parseInt l) ||| int 500))
    (fun limit =>
       bind (req_query ~> "mmsi") (fun mmsi =>
         let query := "SELECT * FROM ais_positions" in
         let params : list value := [] in
         let '(query, params) :=
           if ToBoolean mmsi then (query ++ " WHERE mmsi = $1", (params ++ [mmsi])%list)
           else (query, params) in
         let query := query ++ " ORDER BY timestamp DESC LIMIT $"
                      ++ JS.String (int (Z.of_nat (List.length params) + 1)) in
         let params := (params ++ [limit])%list in
         Return (query, params))).

(** ** What the handler reads from a message *)

(** [v?.k] as a value. *)
Definition field (v : value) (k : string) : value :=
  match v with
  | Obj props => own k props
  | _ => Undefined
  end.

Definition or_else (v d : value) : value := if ToBoolean v then v else d.

Definition MessageType (msg : value) : value := field msg "MessageType".
Definition MetaData (msg : value) : value := field msg "MetaData".
Definition MMSI (msg : value) : value := field (MetaData msg) "MMSI".
Definition PositionReport (msg : value) : value :=
  field (field msg "Message") "PositionReport".
Definition ShipStaticData (msg : value) : value :=
  field (field msg "Message") "ShipStaticData".

(** The two tests that guard the position branch, and the two that
    guard the static branch. *)
Definition is_position (msg : value) : bool :=
  strict_eq_str (MessageType msg) "PositionReport" && ToBoolean (PositionReport msg).

Definition position_guard (msg : value) : bool :=
  ToBoolean (MMSI msg)
  && ToBoolean (field (PositionReport msg) "Latitude")
  && ToBoolean (field (PositionReport msg) "Longitude").

Definition is_static (msg : value) : bool :=
  strict_eq_str (MessageType msg) "ShipStaticData" && ToBoolean (ShipStaticData msg).

Definition static_guard (msg : value) : bool := ToBoolean (MMSI msg).

(** The statements the handler sends for a message. *)
Definition position_insert (msg : value) : Stmt :=
  let pos := PositionReport msg in
  insert_position
    (JS.String (MMSI msg))
    (or_else (field (MetaData msg) "ShipName") Null)
    (field pos "Latitude")
    (field pos "Longitude")
    (or_else (field pos "Sog") (int 0))
    (or_else (field pos "TrueHeading") (int 0))
    (or_else (field pos "Cog") (int 0))
    (JS.String (or_else (field pos "NavigationalStatus") (int 0)))
    "PositionReport".

Definition position_upsert (msg : value) : Stmt :=
  let pos := PositionReport msg in
  upsert_vessel_position
    (JS.String (MMSI msg))
    (or_else (field (MetaData msg) "ShipName") (Str ("Vessel " ++ JS.String (MMSI msg))))
    (field pos "Latitude")
    (field pos "Longitude")
    (or_else (field pos "Sog") (int 0))
    (or_else (field pos "TrueHeading") (int 0)).

Definition dimension_of (ship : value) (a b : string) : value :=
  let d := field ship "Dimension" in
  or_else (add (or_else (field d a) (int 0)) (or_else (field d b) (int 0))) Null.

Definition static_upsert (rev : Revision) (msg : value) : Stmt :=
  let ship := ShipStaticData msg in
  upsert_vessel_static
    (JS.String (MMSI msg))
    (or_else (or_else (field ship "Name") (field (MetaData msg) "ShipName"))
             (Str ("Vessel " ++ JS.String (MMSI msg))))
    (or_else (field ship "CallSign") Null)
    (if ToBoolean (field ship "ImoNumber")
     then Str (JS.String (field ship "ImoNumber")) else Null)
    (vessel_type_param rev (JS.String (or_else (field ship "Type") (Str "unknown"))))
    (dimension_of ship "A" "B")
    (dimension_of ship "C" "D").

(** [v] is undefined or null. *)
Definition nullish (v : value) : bool :=
  match v with
  | Undefined | Null => true
  | _ => false
  end.

(** The world after one statement has been sent and has left the tables
    as [d]. *)
Definition sent (w : World) (d : Database) : World :=
  {| db := d; tx := S (tx w); console := console w |}.

(** ** Vocabulary of the properties *)

(** The columns of a vessel row that hold its description, and those
    that hold its last position. *)
Definition descriptive (r : Vessel.row) :=
  (Vessel.name r, Vessel.callsign r, Vessel.imo r, Vessel.vessel_type r,
   Vessel.length r, Vessel.width r).

Definition positional (r : Vessel.row) :=
  (Vessel.last_latitude r, Vessel.last_longitude r, Vessel.last_speed r,
   Vessel.last_heading r, Vessel.last_position_time r).


(** A message carries no identity key when MetaData.MMSI is missing,
    null or the empty string. *)
Definition no_identity_key (msg : value) : Prop :=
  nullish (MMSI msg) = true \/ MMSI msg = Str "".

(** A report that lacks a field it must have: a position report without
    identity key or without one of the coordinates, a static report
    without identity key. *)
Definition lacks_required_fields (msg : value) : Prop :=
  (MessageType msg = Str "PositionReport"
   /\ (no_identity_key msg
       \/ nullish (field (PositionReport msg) "Latitude") = true
       \/ nullish (field (PositionReport msg) "Longitude") = true))
  \/ (MessageType msg = Str "ShipStaticData" /\ no_identity_key msg).

(** A position report from a vessel on the equator, with every field
    the feed sends. *)
Definition equator_report : value :=
  Obj [("MessageType", Str "PositionReport");
       ("Message",
        Obj [("PositionReport",
              Obj [("Cog", Num (Fin (2715 # 10)));
                   ("Latitude", int 0);
                   ("Longitude", Num (Fin (-901234 # 10000)));
                   ("NavigationalStatus", int 0);
                   ("Sog", Num (Fin (124 # 10)));
                   ("TrueHeading", int 271);
                   ("UserID", int 366999712)])]);
       ("MetaData",
        Obj [("MMSI", int 366999712);
             ("ShipName", Str "PACIFIC TRADER");
             ("latitude", int 0);
             ("longitude", Num (Fin (-901234 # 10000)));
             ("time_utc", Str "2024-05-01 12:00:00.000000 +0000 UTC")])].

(** The row that the INSERT of a position report builds, with the
    next value of the id sequence and the time of the statement. *)
Definition position_row (now seq : Z) (msg : value) : Position.row :=
  let pos := PositionReport msg in
  {| Position.id := seq;
     Position.mmsi := JS.String (MMSI msg);
     Position.vessel_name := or_else (field (MetaData msg) "ShipName") Null;
     Position.latitude := field pos "Latitude";
     Position.longitude := field pos "Longitude";
     Position.speed := or_else (field pos "Sog") (int 0);
     Position.heading := or_else (field pos "TrueHeading") (int 0);
     Position.course := or_else (field pos "Cog") (int 0);
     Position.nav_status := JS.String (or_else (field pos "NavigationalStatus") (int 0));
     Position.timestamp := now;
     Position.message_type := "PositionReport";
     Position.created_at := now |}.



(** A position report off Cape Town; [status] is the payload's
    NavigationalStatus field, if it has one. *)
Definition cape_town_report (status : option value) : value :=
  Obj [("MessageType", Str "PositionReport");
       ("Message",
        Obj [("PositionReport",
              Obj (match status with
                   | Some v => [("NavigationalStatus", v)]
                   | None => []
                   end ++
                   [("Latitude", Num (Fin (-339 # 10)));
                    ("Longitude", Num (Fin (184 # 10)))])%list)]);
       ("MetaData",
        Obj [("MMSI", int 601234500);
             ("time_utc", Str "2024-05-01 12:00:00.000000 +0000 UTC")])].

Definition empty_database : Database :=
  {| vessels := ∅; ais_positions := []; ais_positions_id_seq := 1 |}.

Definition fresh_world : World :=
  {| db := empty_database; tx := 0; console := [] |}.



(** The vessel row that the upsert of a static report leaves under its
    key, from the row found there, if any. *)
Definition static_row (rev : Revision) (now : Z) (msg : value)
    (found : option Vessel.row) : Vessel.row :=
  let ship := ShipStaticData msg in
  upsert_static_row now
    (JS.String (MMSI msg))
    (or_else (or_else (field ship "Name") (field (MetaData msg) "ShipName"))
             (Str ("Vessel " ++ JS.String (MMSI msg))))
    (or_else (field ship "CallSign") Null)
    (if ToBoolean (field ship "ImoNumber")
     then Str (JS.String (field ship "ImoNumber")) else Null)
    (vessel_type_param rev (JS.String (or_else (field ship "Type") (Str "unknown"))))
    (dimension_of ship "A" "B")
    (dimension_of ship "C" "D")
    found.



(** The decimal numeral of an integer. *)
Definition decimal (n : Z) : string := pretty n.

(** The primary key of the history table: ids are pairwise distinct
    and below the next value of the sequence. *)
Definition ids_unique (d : Database) : Prop :=
  NoDup (Position.id <$> ais_positions d)
  /\ Forall (fun r => Position.id r < ais_positions_id_seq d) (ais_positions d).

(** *** Sample data *)

(** 2024-05-01 12:00:00 UTC, in microseconds, one millisecond per
    statement. *)
Definition noon : Z := 1714564800000000.
Definition sample_clock (n : nat) : Z := noon + Z.of_nat n * 1000.
Definition accept_all (n : nat) (s : Stmt) : bool := true.
Definition size_below (d : Database) : Z := 3 * 2 ^ 30.
Definition size_above (d : Database) : Z := 71 * 2 ^ 30.

(** A position report whose metadata has no MMSI. *)
Definition report_without_key : value :=
  Obj [("MessageType", Str "PositionReport");
       ("Message",
        Obj [("PositionReport",
              Obj [("Latitude", Num (Fin (515 # 10)));
                   ("Longitude", Num (Fin (-1 # 10)))])]);
       ("MetaData", Obj [("ShipName", Str "THAMES CLIPPER")])].

(** A static report of a sailing yacht, 12 m by 4 m. *)
Definition yacht_static_report : value :=
  Obj [("MessageType", Str "ShipStaticData");
       ("Message",
        Obj [("ShipStaticData",
              Obj [("CallSign", Str "ZR1234");
                   ("Dimension",
                    Obj [("A", int 7); ("B", int 5); ("C", int 2); ("D", int 2)]);
                   ("ImoNumber", int 0);
                   ("Name", Str "SEA BREEZE");
                   ("Type", int 36)])]);
       ("MetaData", Obj [("MMSI", int 601234500); ("ShipName", Str "SEA BREEZE")])].

(** The world after the Cape Town report has been processed. *)
Definition world_with_vessel : World :=
  snd (onMessage sample_clock accept_all size_below
         (fun _ => Some (cape_town_report None)) part_001 "" fresh_world).

Definition history_row (id created_at : Z) : Position.row :=
  {| Position.id := id; Position.mmsi := "601234500";
     Position.vessel_name := Null;
     Position.latitude := Num (Fin (-339 # 10));
     Position.longitude := Num (Fin (184 # 10));
     Position.speed := int 0; Position.heading := int 0; Position.course := int 0;
     Position.nav_status := "0";
     Position.timestamp := created_at;
     Position.message_type := "PositionReport";
     Position.created_at := created_at |}.

(** A history with one row ingested 72 hours and one row ingested one
    hour before noon. *)
Definition world_72h_1h : World :=
  {| db := {| vessels := ∅;
              ais_positions := [history_row 1 (noon - hours 72);
                                history_row 2 (noon - hours 1)];
              ais_positions_id_seq := 3 |};
     tx := 0; console := [] |}.

(** A history of eleven rows, ingested out of id order. *)
Definition world_eleven_rows : World :=
  {| db := {| vessels := ∅;
              ais_positions :=
                [history_row 1 (noon - hours 5); history_row 2 (noon - hours 9);
                 history_row 3 (noon - hours 2); history_row 4 (noon - hours 7);
                 history_row 5 (noon - hours 1); history_row 6 (noon - hours 8);
                 history_row 7 (noon - hours 3); history_row 8 (noon - hours 6);
                 history_row 9 (noon - hours 4); history_row 10 (noon - hours 11);
                 history_row 11 (noon - hours 10)];
              ais_positions_id_seq := 12 |};
     tx := 0; console := [] |}.

(** The vessel row that the Cape Town report creates. *)
Definition cape_town_vessel : Vessel.row :=
  upsert_position_row (sample_clock 1) "601234500" (Str "Vessel 601234500")
    (Num (Fin (-339 # 10))) (Num (Fin (184 # 10))) (int 0) (int 0) None.

(** ** Invariants of the tables *)

(** A vessel row is stored under its own mmsi. *)
Definition keys_agree (d : Database) : Prop :=
  forall k r, vessels d !! k = Some r -> Vessel.mmsi r = k.

(** The two time columns of a history row hold the same instant. *)
Definition stamps_agree (d : Database) : Prop :=
  Forall (fun r => Position.timestamp r = Position.created_at r) (ais_positions d).

Definition consistent (d : Database) : Prop :=
  ids_unique d /\ keys_agree d /\ stamps_agree d.

(** The statements of the message handler, and the others. *)
Definition is_ingestion (s : Stmt) : bool :=
  match s with
  | insert_position _ _ _ _ _ _ _ _ _
  | upsert_vessel_position _ _ _ _ _ _
  | upsert_vessel_static _ _ _ _ _ _ _ => true
  | _ => false
  end.

Definition is_retention (s : Stmt) : bool := negb (is_ingestion s).

(** [m] changes the tables only through accepted statements of the kind
    [A]: every reflexive and transitive relation on tables that those
    statements respect holds between the tables before and after [m]. *)
Definition sends_only (A : Stmt -> bool) {X} (m : M X) : Prop :=
  forall R : Database -> Database -> Prop,
    (forall d, R d d) ->
    (forall a b c, R a b -> R b c -> R a c) ->
    (forall now size s d r d',
        A s = true -> exec now size s d = Some (r, d') -> R d d') ->
    forall w, R (db w) (db (snd (m w))).

(** ** Outcomes of the handler *)

(** The world after a line has been written to the console. *)
Definition logged (w : World) (e : LogEntry) : World :=
  {| db := db w; tx := tx w; console := (console w ++ [e])%list |}.

(** The world after a statement of the handler was sent and failed. *)
Definition failed (w : World) : World :=
  logged (sent w (db w)) (error "Error processing message:" DatabaseError).

(** The tables with one more history row, and with a vessel row put
    under a key. *)
Definition with_history_row (r : Position.row) (d : Database) : Database :=
  {| vessels := vessels d;
     ais_positions := (ais_positions d ++ [r])%list;
     ais_positions_id_seq := ais_positions_id_seq d + 1 |}.

Definition with_vessel (k : string) (r : Vessel.row) (d : Database) : Database :=
  {| vessels := <[k := r]> (vessels d);
     ais_positions := ais_positions d;
     ais_positions_id_seq := ais_positions_id_seq d |}.

(** The vessel row that the upsert of a position report leaves under
    its key, from the row found there, if any. *)
Definition position_vessel_row (now : Z) (msg : value)
    (found : option Vessel.row) : Vessel.row :=
  let pos := PositionReport msg in
  upsert_position_row now
    (JS.String (MMSI msg))
    (or_else (field (MetaData msg) "ShipName") (Str ("Vessel " ++ JS.String (MMSI msg))))
    (field pos "Latitude")
    (field pos "Longitude")
    (or_else (field pos "Sog") (int 0))
    (or_else (field pos "TrueHeading") (int 0))
    found.

(** Every vessel row has a name that is neither NULL nor empty. *)
Definition named (d : Database) : Prop :=
  forall k r, vessels d !! k = Some r -> ToBoolean (Vessel.name r) = true.


(** The history of [d'] is what is left of the history of [d] after
    rows have been deleted; nothing else differs. *)
Definition pruned (d d' : Database) : Prop :=
  vessels d' = vessels d
  /\ ais_positions_id_seq d' = ais_positions_id_seq d
  /\ sublist (ais_positions d') (ais_positions d).

(** Answers of PostgreSQL used in examples: every statement fails, and
    only the first statement succeeds. *)
Definition reject_all (n : nat) (s : Stmt) : bool := false.


(** ** The process: start-up, the socket and the routes *)

(** What the start-up code and the routes can catch: the error of a
    statement that failed, with its message, an [Error] that the code
    makes, or an exception of a handler. *)
Inductive Failure :=
| rejected (message : string)
| Error (message : string)
| raised (e : exn).

(** A function of the process returns, throws, or ends the process
    with [process.exit(code)]. *)
Inductive outcome (A : Type) :=
| Done (a : A)
| Raise (f : Failure)
| Exit (code : Z).

Arguments Done {A} a.
Arguments Raise {A} f.
Arguments Exit {A} code.

(** Lines of the console: the text of the call with the values
    interpolated or passed along. *)
Inductive Arg :=
| shown (v : value)
| failure (f : Failure).

Inductive Line :=
| stdout (text : string) (args : list Arg)      (* console.log *)
| stderr (text : string) (args : list Arg)      (* console.error *)
| handler_line (e : LogEntry).                  (* of the handler or the clean-up *)

Inductive ReadyState := CONNECTING | OPEN | CLOSING | CLOSED.

Record WebSocket := {
  url : string;
  readyState : ReadyState;
  frames : list string            (* the frames passed to [send], oldest first *)
}.

(** [process.env]: a variable is a string, or undefined. *)
Record Env := {
  DATABASE_URL : value;
  AISSTREAM_API_KEY : value;
  PORT : value
}.

Record Process := {
  env : Env;
  tables : Database;
  statements : nat;               (* statements sent to the pool so far *)
  output : list Line;
  sleeps : list Z;                (* delays awaited, in ms, oldest first *)
  sockets : list WebSocket;       (* every socket made; [ws] is the last *)
  timeouts : list Z               (* pending setTimeout(connectAIS, ms) *)
}.

Definition P (A : Type) : Type := Process -> outcome A * Process.

Definition retP {A} (a : A) : P A := fun p => (Done a, p).

Definition bindP {A B} (c : P A) (k : A -> P B) : P B := fun p =>
  match c p with
  | (Done a, p') => k a p'
  | (Raise f, p') => (Raise f, p')
  | (Exit code, p') => (Exit code, p')
  end.

Notation "x <~ c ;; k" := (bindP c (fun x => k))
  (at level 100, c at next level, k at level 200, right associativity).

Definition throw {A} (f : Failure) : P A := fun p => (Raise f, p).

Definition process_exit {A} (code : Z) : P A := fun p => (Exit code, p).

(** [try { body } catch (error) { handler }]; [process.exit] is not
    caught. *)
Definition try_catchP {A} (body : P A) (handler : Failure -> P A) : P A := fun p =>
  match body p with
  | (Raise f, p') => handler f p'
  | r => r
  end.

Definition getenv (variable : Env -> value) : P value := fun p =>
  (Done (variable (env p)), p).

Definition print (l : Line) : P unit := fun p =>
  (Done tt,
   {| env := env p; tables := tables p; statements := statements p;
      output := (output p ++ [l])%list; sleeps := sleeps p;
      sockets := sockets p; timeouts := timeouts p |}).

(** [await new Promise(resolve => setTimeout(resolve, ms))] *)
Definition sleep (ms : Z) : P unit := fun p =>
  (Done tt,
   {| env := env p; tables := tables p; statements := statements p;
      output := output p; sleeps := (sleeps p ++ [ms])%list;
      sockets := sockets p; timeouts := timeouts p |}).

(** [ws = new WebSocket(address)] *)
Definition new_WebSocket (address : string) : P unit := fun p =>
  (Done tt,
   {| env := env p; tables := tables p; statements := statements p;
      output := output p; sleeps := sleeps p;
      sockets := (sockets p
                  ++ [{| url := address; readyState := CONNECTING; frames := [] |}])%list;
      timeouts := timeouts p |}).

(** [setTimeout(connectAIS, ms)] *)
Definition setTimeout_connectAIS (ms : Z) : P unit := fun p =>
  (Done tt,
   {| env := env p; tables := tables p; statements := statements p;
      output := output p; sleeps := sleeps p;
      sockets := sockets p; timeouts := (timeouts p ++ [ms])%list |}).

(** A function of the handlers' world, run in the process: it sees the
    tables and the count of statements, and its lines go to the
    console. *)
Definition run {A} (m : M A) : P A := fun p =>
  let '(c, w) := m {| db := tables p; tx := statements p; console := [] |} in
  let p' := {| env := env p; tables := db w; statements := tx w;
               output := (output p ++ (handler_line <$> console w))%list;
               sleeps := sleeps p; sockets := sockets p; timeouts := timeouts p |} in
  match c with
  | Return a => (Done a, p')
  | Throw e => (Raise (raised e), p')
  end.

(** The statements of the start-up. *)
Inductive Query :=
| select_now          (* SELECT NOW() *)
| create_tables.      (* CREATE TABLE IF NOT EXISTS ...; CREATE INDEX IF NOT EXISTS ... *)

Section Startup.

Variable clock : nat -> Z.
Variable pg_accepts : nat -> Stmt -> bool.
Variable pg_database_size : Database -> Z.
(** Whether PostgreSQL answers the n-th statement, when it is one of
    the start-up, and the message of the error when it does not. *)
Variable pg_answers : nat -> Query -> bool.
Variable pg_message : nat -> string.
(** The message of an exception of the handlers. *)
Variable exn_message : exn -> string.
Variable rev : Revision.

(** [await pool.query(q)]: the start-up does not read the result.  The
    tables of the schema exist already or are created empty, so a
    statement of the start-up leaves the tables as they are. *)
Definition pool_query_startup (q : Query) : P unit := fun p =>
  let p' := {| env := env p; tables := tables p; statements := S (statements p);
               output := output p; sleeps := sleeps p;
               sockets := sockets p; timeouts := timeouts p |} in
  if pg_answers (statements p) q then (Done tt, p')
  else (Raise (rejected (pg_message (statements p))), p').

(** [error.message] *)
Definition message_of (f : Failure) : value :=
  match f with
  | rejected m => Str m
  | Error m => Str m
  | raised e => Str (exn_message e)
  end.

(** The loop of [connectWithRetry], from [i] on: one round per unit of
    [fuel].  The body answers [true] when it has returned from the
    function. *)
Fixpoint connect_loop (fuel : nat) (i maxRetries delay : Z) : P unit :=
  match fuel with
  | O => retP tt
  | S fuel =>
      if i <? maxRetries then
        returned <~
          try_catchP
            (_ <~ print (stdout "Database connection attempt ${i + 1}/${maxRetries}..."
                           [shown (int (i + 1)); shown (int maxRetries)]) ;;
             _ <~ pool_query_startup select_now ;;
             _ <~ print (stdout "Database connected successfully" []) ;;
             retP true)
            (fun error =>
               _ <~ print (stderr "Connection attempt ${i + 1} failed:"
                             [shown (int (i + 1)); shown (message_of error)]) ;;
               if i <? maxRetries - 1 then
                 _ <~ print (stdout "Retrying in ${delay}ms..." [shown (int delay)]) ;;
                 _ <~ sleep delay ;;
                 retP false
               else
                 throw (Error ("Failed to connect after " ++ decimal maxRetries
                               ++ " attempts"))) ;;
        if returned : bool then retP tt
        else connect_loop fuel (i + 1) maxRetries delay
      else retP tt
  end.

(** [connectWithRetry(maxRetries = 5, delay = 3000)]: the loop runs at
    most [maxRetries] rounds. *)
Definition connectWithRetry (maxRetries delay : Z) : P unit :=
  connect_loop (Z.to_nat maxRetries) 0 maxRetries delay.

(** [initDatabase]: the revision of src/unnamed/part_001 connects with
    retries, that of src/index.js tests the connection once. *)
Definition initDatabase : P unit :=
  try_catchP
    (_ <~ match rev with
          | part_001 => connectWithRetry 5 3000
          | index_js =>
              _ <~ print (stdout "Connecting to database..." []) ;;
              _ <~ pool_query_startup select_now ;;
              print (stdout "Database connected successfully" [])
          end ;;
     _ <~ pool_query_startup create_tables ;;
     print (stdout "Database tables initialized" []))
    (fun error =>
       _ <~ print (stderr "Database initialization error:" [failure error]) ;;
       throw error).

Definition connectAIS : P unit :=
  _ <~ print (stdout "Connecting to AISStream..." []) ;;
  new_WebSocket "wss://stream.aisstream.io/v0/stream".

(** [const port = process.env.PORT || 3000] *)
Definition port (e : Env) : value := or_else (PORT e) (int 3000).

(** The callback of [app.listen]. *)
Definition app_listen : P unit :=
  listening <~ getenv port ;;
  _ <~ print (stdout "Server running on port ${port}" [shown listening]) ;;
  _ <~ match rev with
       | part_001 =>
           print (stdout "Railway Professional Plan - WebSocket will stay connected 24/7" [])
       | index_js => retP tt
       end ;;
  database_url <~ getenv DATABASE_URL ;;
  _ <~ (if negb (ToBoolean database_url) then
          _ <~ print (stderr "ERROR: DATABASE_URL not set! Please add PostgreSQL database in Railway." []) ;;
          process_exit 1
        else retP tt) ;;
  api_key <~ getenv AISSTREAM_API_KEY ;;
  _ <~ (if negb (ToBoolean api_key) then
          _ <~ print (stderr "ERROR: AISSTREAM_API_KEY not set! Please add it in Railway environment variables." []) ;;
          process_exit 1
        else retP tt) ;;
  try_catchP
    (_ <~ initDatabase ;;
     match rev with
     | part_001 =>
         _ <~ print (stdout "Starting AIS WebSocket connection for all vessels..." []) ;;
         _ <~ connectAIS ;;
         (* Run initial cleanup *)
         run (cleanupOldData clock pg_accepts pg_database_size)
     | index_js => connectAIS
     end)
    (fun error =>
       _ <~ print (stderr "Startup failed:" [failure error]) ;;
       _ <~ match rev with
            | part_001 =>
                print (stderr "Ensure PostgreSQL database is running and DATABASE_URL is correct" [])
            | index_js => retP tt
            end ;;
       process_exit 1).

End Startup.

(** [p'] is [p] after [n] statements of the start-up and [slept]
    sleeps of [delay] ms: the console has grown, and nothing else
    differs. *)
Definition after_attempts (delay : Z) (n slept : nat) (p p' : Process) : Prop :=
  env p' = env p
  /\ tables p' = tables p
  /\ statements p' = (statements p + n)%nat
  /\ sleeps p' = (sleeps p ++ replicate slept delay)%list
  /\ sockets p' = sockets p
  /\ timeouts p' = timeouts p
  /\ exists lines, output p' = (output p ++ lines)%list.

(** A process that has just started, with the variables of its
    environment. *)
Definition boot (e : Env) : Process :=
  {| env := e; tables := empty_database; statements := 0; output := [];
     sleeps := []; sockets := []; timeouts := [] |}.

Definition railway : Env :=
  {| DATABASE_URL := Str "postgresql://postgres@db.internal:5432/railway";
     AISSTREAM_API_KEY := Str "0123456789abcdef";
     PORT := Str "8080" |}.

(** PostgreSQL comes up after [n] statements have failed. *)
Definition answers_from (n : nat) (k : nat) (q : Query) : bool := (n <=? k)%nat.
Definition refused (k : nat) : string := "connect ECONNREFUSED".

(** ** The socket and its handlers *)

(** The answer of a route: [res.json(body)] answers with status 200,
    [res.status(code).json(body)] with [code]. *)
Inductive Rows :=
| vessel_rows (l : list Vessel.row)
| position_rows (l : list Position.row).

Inductive Body :=
| health_body (connected : bool)     (* { status: 'ok', connected } *)
| rows_body (result : Rows)          (* result.rows *)
| error_body (message : value).      (* { error: error.message } *)

Record Response := {
  status : Z;
  body : Body
}.

Definition res_json (b : Body) : Response := {| status := 200; body := b |}.

(** What the ws library does to a socket before it calls a handler. *)
Definition set_readyState (i : nat) (state : ReadyState) : P unit := fun p =>
  (Done tt,
   {| env := env p; tables := tables p; statements := statements p;
      output := output p; sleeps := sleeps p;
      sockets := alter (fun s => {| url := url s; readyState := state;
                                    frames := frames s |}) i (sockets p);
      timeouts := timeouts p |}).

(** A timeout fires: it is pending no more. *)
Definition clear_timeout : P unit := fun p =>
  (Done tt,
   {| env := env p; tables := tables p; statements := statements p;
      output := output p; sleeps := sleeps p;
      sockets := sockets p; timeouts := tail (timeouts p) |}).

(** [ws.send(frame)], on the socket that the variable [ws] holds: the
    last one made.  The ws library throws while the socket is
    connecting, and drops the frame once it is closing or closed. *)
Definition ws_send (frame : string) : P unit := fun p =>
  match last (sockets p) with
  | Some s =>
      match readyState s with
      | OPEN =>
          (Done tt,
           {| env := env p; tables := tables p; statements := statements p;
              output := output p; sleeps := sleeps p;
              sockets := alter (fun s => {| url := url s; readyState := readyState s;
                                            frames := (frames s ++ [frame])%list |})
                           (length (sockets p) - 1)%nat (sockets p);
              timeouts := timeouts p |})
      | CONNECTING =>
          (Raise (Error "WebSocket is not open: readyState 0 (CONNECTING)"), p)
      | CLOSING | CLOSED => (Done tt, p)
      end
  | None => (Raise (raised TypeError), p)
  end.

Section Socket.

Variable clock : nat -> Z.
Variable pg_accepts : nat -> Stmt -> bool.
Variable pg_database_size : Database -> Z.
Variable JSON_parse : string -> option value.
(** [JSON.stringify] *)
Variable JSON_stringify : value -> string.
Variable rev : Revision.

(** The subscription; the revision of src/index.js asks for ship type
    36 only. *)
Definition subscription (e : Env) : value :=
  Obj ([("APIKey", AISSTREAM_API_KEY e);
        ("BoundingBoxes",
         Arr [Arr [Arr [int (-90); int (-180)]; Arr [int 90; int 180]]]);
        ("FilterMessageTypes", Arr [Str "PositionReport"; Str "ShipStaticData"])]
       ++ match rev with
          | index_js => [("FilterShipTypes", Arr [int 36])]
          | part_001 => []
          end)%list.

(** The four handlers that [connectAIS] registers on the socket. *)
Definition on_open : P unit :=
  _ <~ print (stdout match rev with
                     | index_js => "Connected to AISStream - listening for yachts only"
                     | part_001 => "Connected to AISStream - listening for all vessels"
                     end []) ;;
  request <~ getenv subscription ;;
  ws_send (JSON_stringify request).

Definition on_message (data : string) : P unit :=
  run (onMessage clock pg_accepts pg_database_size JSON_parse rev data).

Definition on_error (error : Failure) : P unit :=
  print (stderr "WebSocket error:" [failure error]).

Definition on_close : P unit :=
  _ <~ print (stdout "Disconnected from AISStream. Reconnecting immediately..." []) ;;
  setTimeout_connectAIS 100.

(** What can happen to the process once it has started: an event of
    the socket numbered [i], or the oldest pending timeout fires. *)
Inductive Event :=
| opens (i : nat)
| receives (i : nat) (data : string)
| fails (i : nat) (reason : Failure)
| closes (i : nat)
| timeout_fires.

Definition in_state (i : nat) (accepted : ReadyState -> bool) (p : Process) : bool :=
  match sockets p !! i with
  | Some s => accepted (readyState s)
  | None => false
  end.

Definition is_connecting (s : ReadyState) : bool :=
  match s with CONNECTING => true | _ => false end.
Definition is_open (s : ReadyState) : bool :=
  match s with OPEN => true | _ => false end.
Definition not_closed (s : ReadyState) : bool :=
  match s with CLOSED => false | _ => true end.

(** The events that the ws library and the timers can emit in a state:
    a socket opens while it is connecting, receives frames while it is
    open, and fails and closes while it is not closed. *)
Definition enabled (e : Event) (p : Process) : bool :=
  match e with
  | opens i => in_state i is_connecting p
  | receives i _ => in_state i is_open p
  | fails i _ => in_state i not_closed p
  | closes i => in_state i not_closed p
  | timeout_fires => match timeouts p with [] => false | _ => true end
  end.

(** The state change of the ws library, then the handler: the library
    sets a socket to OPEN before it emits open, to CLOSING before it
    emits error, and to CLOSED before it emits close. *)
Definition react (e : Event) : P unit :=
  match e with
  | opens i => _ <~ set_readyState i OPEN ;; on_open
  | receives i data => on_message data
  | fails i reason => _ <~ set_readyState i CLOSING ;; on_error reason
  | closes i => _ <~ set_readyState i CLOSED ;; on_close
  | timeout_fires => _ <~ clear_timeout ;; connectAIS
  end.

(** The process after a sequence of events; [None] when an event is
    not enabled when its turn comes, or when a handler throws. *)
Fixpoint play (events : list Event) (p : Process) : option Process :=
  match events with
  | [] => Some p
  | e :: rest =>
      if enabled e p then
        match react e p with
        | (Done _, p') => play rest p'
        | _ => None
        end
      else None
  end.

(** [app.get('/health', ...)] *)
Definition health : P Response := fun p =>
  (Done (res_json (health_body match last (sockets p) with
                               | Some ws => is_open (readyState ws)
                               | None => false
                               end)), p).

End Socket.

Definition live (s : WebSocket) : bool := not_closed (readyState s).

(** Either the last socket made is the only one not closed and no
    reconnection is pending, or every socket is closed and exactly one
    reconnection is pending. *)
Definition single_connection (p : Process) : Prop :=
  (forall i s, sockets p !! i = Some s -> live s = true ->
               S i = length (sockets p))
  /\ (timeouts p = [] /\ (exists s, last (sockets p) = Some s /\ live s = true)
      \/ (exists ms, timeouts p = [ms])
         /\ (forall s, last (sockets p) = Some s -> live s = false)).

(** Every socket was sent the frame [request] when it opened, and
    nothing else. *)
Definition subscribed (request : string) (p : Process) : Prop :=
  Forall (fun s => match readyState s with
                   | CONNECTING => frames s = []
                   | OPEN => frames s = [request]
                   | CLOSING | CLOSED => frames s = [] \/ frames s = [request]
                   end) (sockets p).

(** The frames sent on [s'] are those sent on [s], and [sent] after
    them. *)
Definition frames_grow (sent : list string) (s s' : WebSocket) : Prop :=
  frames s' = (frames s ++ sent)%list.

(** ** The routes that read the tables *)

(** ORDER BY timestamp DESC, and ORDER BY updated_at DESC, where NULL
    sorts first. *)
Definition newest_first (a b : Position.row) : Prop :=
  Position.timestamp b <= Position.timestamp a.

Definition last_updated_first (a b : Vessel.row) : Prop :=
  match Vessel.updated_at a, Vessel.updated_at b with
  | None, _ => True
  | Some _, None => False
  | Some x, Some y => y <= x
  end.

Global Instance newest_first_dec : RelDecision newest_first.
Proof. intros a b. unfold newest_first. apply _. Defined.

Global Instance last_updated_first_dec : RelDecision last_updated_first.
Proof.
  intros a b. unfold last_updated_first.
  destruct (Vessel.updated_at a), (Vessel.updated_at b); apply _.
Defined.

Definition res_status_json (code : Z) (b : Body) : Response :=
  {| status := code; body := b |}.

(** An expression of the handlers' language, evaluated in a route. *)
Definition evalP {A} (c : completion A) : P A := fun p =>
  match c with
  | Return a => (Done a, p)
  | Throw e => (Raise (raised e), p)
  end.

Section Routes.

(** Whether PostgreSQL answers the n-th statement, when it is a query
    of a route, and the message of the error when it does not. *)
Variable pg_serves : nat -> string -> list value -> bool.
Variable pg_message : nat -> string.
Variable exn_message : exn -> string.
(** What PostgreSQL reads from a parameter that node-postgres has
    encoded: a text ([None] is NULL), a bigint ([None] is an error) and
    a timestamp in microseconds ([None] is an error, [Some None] is
    NULL). *)
Variable pg_text : value -> option string.
Variable pg_int8 : value -> option Z.
Variable pg_timestamp : value -> option (option Z).

(** ORDER BY timestamp DESC LIMIT n; a negative limit is an error. *)
Definition newest (limit : value) (table : list Position.row) : option Rows :=
  match pg_int8 limit with
  | Some n =>
      if n <? 0 then None
      else Some (position_rows (take (Z.to_nat n) (merge_sort newest_first table)))
  | None => None
  end.

(** The rows that a query of a route returns; [None] when PostgreSQL
    raises an error.  A comparison with NULL holds for no row. *)
Definition select_rows (text : string) (params : list value) (d : Database)
    : option Rows :=
  if String.eqb text "SELECT * FROM vessels ORDER BY updated_at DESC" then
    match params with
    | [] => Some (vessel_rows (merge_sort last_updated_first
                                 (snd <$> map_to_list (vessels d))))
    | _ => None
    end
  else if String.eqb text
            "SELECT * FROM ais_positions WHERE mmsi = $1 ORDER BY timestamp DESC LIMIT $2"
  then
    match params with
    | [mmsi; limit] =>
        newest limit
          match pg_text mmsi with
          | Some s => filter (fun r => Position.mmsi r = s) (ais_positions d)
          | None => []
          end
    | _ => None
    end
  else if String.eqb text "SELECT * FROM ais_positions ORDER BY timestamp DESC LIMIT $1"
  then
    match params with
    | [limit] => newest limit (ais_positions d)
    | _ => None
    end
  else if String.eqb text
            "SELECT * FROM ais_positions WHERE created_at > $1 ORDER BY timestamp DESC"
  then
    match params with
    | [since] =>
        match pg_timestamp since with
        | Some (Some t) =>
            Some (position_rows
                    (merge_sort newest_first
                       (filter (fun r => t < Position.created_at r) (ais_positions d))))
        | Some None => Some (position_rows [])
        | None => None
        end
    | _ => None
    end
  else None.

(** [await pool.query(text, params)] in a route. *)
Definition pool_query_rows (text : string) (params : list value) : P Rows := fun p =>
  let p' := {| env := env p; tables := tables p; statements := S (statements p);
               output := output p; sleeps := sleeps p;
               sockets := sockets p; timeouts := timeouts p |} in
  if pg_serves (statements p) text params then
    match select_rows text params (tables p) with
    | Some result => (Done result, p')
    | None => (Raise (rejected (pg_message (statements p))), p')
    end
  else (Raise (rejected (pg_message (statements p))), p').

(** [res.status(500).json({ error: error.message })] *)
Definition internal_error (error : Failure) : P Response :=
  retP (res_status_json 500 (error_body (message_of exn_message error))).

(** [app.get('/api/vessels', ...)] *)
Definition api_vessels : P Response :=
  try_catchP
    (result <~ pool_query_rows "SELECT * FROM vessels ORDER BY updated_at DESC" [] ;;
     retP (res_json (rows_body result)))
    internal_error.

(** [app.get('/api/positions', ...)] *)
Definition api_positions (req_query : value) : P Response :=
  try_catchP
    (request <~ evalP (api_positions_query req_query) ;;
     result <~ pool_query_rows (fst request) (snd request) ;;
     retP (res_json (rows_body result)))
    internal_error.

(** [app.get('/api/positions/since', ...)] *)
Definition api_positions_since (req_query : value) : P Response :=
  try_catchP
    (since <~ evalP (req_query ~> "since") ;;
     result <~ pool_query_rows
                 "SELECT * FROM ais_positions WHERE created_at > $1 ORDER BY timestamp DESC"
                 [since] ;;
     retP (res_json (rows_body result)))
    internal_error.

End Routes.

(** How node-postgres and PostgreSQL read the parameters that occur in
    the examples. *)
Definition sample_text (v : value) : option string :=
  match v with
  | Undefined | Null => None
  | _ => Some (JS.String v)
  end.

Definition sample_int8 (v : value) : option Z :=
  match v with
  | Num (Fin q) =>
      if (Z.pos (Qden (Qred q)) =? 1) && (Z.abs (Qnum (Qred q)) <? 2 ^ 63)
      then Some (Qnum (Qred q)) else None
  | _ => None
  end.

Definition sample_timestamp (v : value) : option (option Z) :=
  match v with
  | Undefined | Null => Some None
  | Str "2024-05-01T09:00:00Z" => Some (Some (noon - hours 3))
  | _ => None
  end.

Definition serve_all (n : nat) (text : string) (params : list value) : bool := true.
Definition negative_limit (k : nat) : string := "LIMIT must not be negative".

(** *** Sample processes *)

Definition exception_name (e : exn) : string :=
  match e with
  | SyntaxError => "Unexpected token"
  | TypeError => "Cannot read properties of undefined"
  | DatabaseError => "connection terminated"
  end.

(** An environment without DATABASE_URL. *)
Definition no_database : Env :=
  {| DATABASE_URL := Undefined;
     AISSTREAM_API_KEY := Str "0123456789abcdef";
     PORT := Undefined |}.

(** A process whose only socket is connecting. *)
Definition connecting : Process :=
  {| env := railway; tables := empty_database; statements := 2; output := [];
     sleeps := [];
     sockets := [{| url := "wss://stream.aisstream.io/v0/stream";
                    readyState := CONNECTING; frames := [] |}];
     timeouts := [] |}.

(** A process that serves the tables of [w]. *)
Definition serving (w : World) : Process :=
  {| env := railway; tables := db w; statements := tx w; output := [];
     sleeps := []; sockets := []; timeouts := [] |}.

Definition stringify_sample (v : value) : string := "subscription".

(** A connection that opens, receives a frame, fails and closes, and
    the reconnection that follows. *)
Definition reconnection : list Event :=
  [opens 0; receives 0 "cape-town"; fails 0 (Error "read ECONNRESET"); closes 0;
   timeout_fires; opens 1].

(** ** Evaluation of the handler *)

Local Open Scope list_scope.

Lemma get_opt_field v k : get_opt v k = Return (field v k).
Proof. destruct v; reflexivity. Qed.

Lemma get_field v k : nullish v = false -> get v k = Return (field v k).
Proof. destruct v; simpl; intros H; try reflexivity; discriminate. Qed.

Lemma truthy_not_nullish v : ToBoolean v = true -> nullish v = false.
Proof. destruct v; simpl; intros H; try reflexivity; discriminate. Qed.

Lemma field_truthy v k : ToBoolean (field v k) = true -> nullish v = false.
Proof. destruct v; simpl; intros H; try reflexivity; discriminate. Qed.

Lemma strict_eq_str_not_nullish v k s :
  strict_eq_str (field v k) s = true -> nullish v = false.
Proof. destruct v; simpl; intros H; try reflexivity; discriminate. Qed.

Lemma or_else_eq v d :
  (if ToBoolean v then Return v else Return d) = Return (or_else v d).
Proof. unfold or_else. destruct (ToBoolean v); reflexivity. Qed.

Lemma strict_eq_str_true v s : strict_eq_str v s = true -> v = Str s.
Proof.
  destruct v; simpl; try discriminate.
  intros H. apply String.eqb_eq in H. congruence.
Qed.

Lemma kind_exclusive v :
  strict_eq_str v "PositionReport" && strict_eq_str v "ShipStaticData" = false.
Proof.
  destruct (strict_eq_str v "PositionReport") eqn:H; [|reflexivity].
  apply strict_eq_str_true in H. subst v. reflexivity.
Qed.

Ltac js_unfold :=
  unfold when, bindM, eval_expr, eval, dimension, Vessel_template, plus, member,
    member_opt, strict_eq, String_of, JS.and, JS.or, lit, bind.

Section Evaluation.

Variable clock : nat -> Z.
Variable pg_accepts : nat -> Stmt -> bool.
Variable pg_database_size : Database -> Z.
Variable JSON_parse : string -> option value.
Variable rev : Revision.

Local Abbreviation query := (pool_query clock pg_accepts pg_database_size).
Local Abbreviation position_block :=
  (handlePositionReport clock pg_accepts pg_database_size).
Local Abbreviation static_block :=
  (handleShipStaticData clock pg_accepts pg_database_size rev).
Local Abbreviation on_message :=
  (onMessage clock pg_accepts pg_database_size JSON_parse rev).

Lemma handlePositionReport_run msg w :
  is_position msg = true ->
  position_guard msg = true ->
  position_block msg w =
    (_ <- query (position_insert msg) ;;
     _ <- query (position_upsert msg) ;;
     ret tt) w.
Proof.
  intros Hk Hg.
  unfold is_position in Hk. apply andb_prop in Hk as [Hk1 Hk2].
  unfold position_guard in Hg. apply andb_prop in Hg as [Hg Hg3].
  apply andb_prop in Hg as [Hg1 Hg2].
  pose proof (strict_eq_str_not_nullish _ _ _ Hk1) as Hmsg.
  pose proof (field_truthy _ _ Hk2) as Hmessage.
  pose proof (truthy_not_nullish _ Hk2) as Hpos.
  pose proof (field_truthy _ _ Hg1) as Hmeta.
  unfold handlePositionReport.
  js_unfold.
  rewrite !(get_field msg) by assumption.
  fold (MessageType msg). rewrite Hk1. cbn [ToBoolean].
  rewrite !get_opt_field. fold (PositionReport msg). rewrite Hk2.
  rewrite !(get_field (field msg "Message")) by assumption.
  fold (PositionReport msg) (MetaData msg).
  rewrite !(get_field (PositionReport msg)) by assumption.
  rewrite !(get_field (MetaData msg)) by assumption.
  fold (MMSI msg). rewrite Hg1, Hg2. cbn beta iota. rewrite Hg3.
  rewrite !or_else_eq. cbn beta iota.
  reflexivity.
Qed.

Lemma handlePositionReport_skip msg w :
  nullish msg = false ->
  is_position msg && position_guard msg = false ->
  position_block msg w = (Return tt, w).
Proof.
  intros Hmsg H.
  unfold handlePositionReport.
  js_unfold.
  rewrite !(get_field msg) by assumption.
  fold (MessageType msg).
  unfold is_position in H.
  destruct (strict_eq_str (MessageType msg) "PositionReport"); [|reflexivity].
  cbn [ToBoolean]. rewrite !get_opt_field. fold (PositionReport msg).
  destruct (ToBoolean (PositionReport msg)) eqn:Hk2; [|reflexivity].
  pose proof (field_truthy _ _ Hk2) as Hmessage.
  pose proof (truthy_not_nullish _ Hk2) as Hpos.
  rewrite !(get_field (field msg "Message")) by assumption.
  fold (PositionReport msg) (MetaData msg).
  rewrite !(get_field (PositionReport msg)) by assumption.
  fold (MMSI msg).
  simpl in H. unfold position_guard in H.
  destruct (ToBoolean (MMSI msg)) eqn:Hg1; cbn beta iota.
  - destruct (ToBoolean (field (PositionReport msg) "Latitude")) eqn:Hg2;
      cbn beta iota.
    + simpl in H. rewrite H. reflexivity.
    + repeat (rewrite Hg2; cbn beta iota). reflexivity.
  - repeat (rewrite Hg1; cbn beta iota). reflexivity.
Qed.

Lemma handlePositionReport_nullish msg w :
  nullish msg = true -> position_block msg w = (Throw TypeError, w).
Proof. destruct msg; simpl; intros H; try discriminate; reflexivity. Qed.

Lemma handleShipStaticData_run msg w :
  is_static msg = true ->
  static_guard msg = true ->
  static_block msg w =
    (_ <- query (static_upsert rev msg) ;; ret tt) w.
Proof.
  intros Hk Hg.
  unfold is_static in Hk. apply andb_prop in Hk as [Hk1 Hk2].
  unfold static_guard in Hg.
  pose proof (strict_eq_str_not_nullish _ _ _ Hk1) as Hmsg.
  pose proof (field_truthy _ _ Hk2) as Hmessage.
  pose proof (truthy_not_nullish _ Hk2) as Hship.
  pose proof (field_truthy _ _ Hg) as Hmeta.
  unfold handleShipStaticData.
  js_unfold.
  rewrite !(get_field msg) by assumption.
  fold (MessageType msg). rewrite Hk1. cbn [ToBoolean].
  rewrite !get_opt_field. fold (ShipStaticData msg). rewrite Hk2.
  rewrite !(get_field (field msg "Message")) by assumption.
  fold (ShipStaticData msg) (MetaData msg).
  rewrite !(get_field (ShipStaticData msg)) by assumption.
  rewrite !(get_field (MetaData msg)) by assumption.
  rewrite !get_opt_field.
  fold (MMSI msg). rewrite Hg. cbn beta iota.
  rewrite !or_else_eq. cbn beta iota.
  unfold static_upsert, dimension_of.
  destruct (ToBoolean (field (ShipStaticData msg) "ImoNumber")); reflexivity.
Qed.

Lemma handleShipStaticData_skip msg w :
  nullish msg = false ->
  is_static msg && static_guard msg = false ->
  static_block msg w = (Return tt, w).
Proof.
  intros Hmsg H.
  unfold handleShipStaticData.
  js_unfold.
  rewrite !(get_field msg) by assumption.
  fold (MessageType msg).
  unfold is_static in H.
  destruct (strict_eq_str (MessageType msg) "ShipStaticData"); [|reflexivity].
  cbn [ToBoolean]. rewrite !get_opt_field. fold (ShipStaticData msg).
  destruct (ToBoolean (ShipStaticData msg)) eqn:Hk2; [|reflexivity].
  pose proof (field_truthy _ _ Hk2) as Hmessage.
  rewrite !(get_field (field msg "Message")) by assumption.
  fold (MetaData msg). rewrite ?get_opt_field. fold (MMSI msg).
  simpl in H. unfold static_guard in H.
  repeat (rewrite H; cbn beta iota). reflexivity.
Qed.

(** The handler on a frame that is not JSON, and on the JSON text of
    null. *)
Lemma onMessage_malformed data w :
  JSON_parse data = None ->
  on_message data w = console_error "Error processing message:" SyntaxError w.
Proof.
  intros H. unfold onMessage, try_catch, bindM, eval_expr, eval, parse.
  rewrite H. reflexivity.
Qed.

Lemma onMessage_nullish data msg w :
  JSON_parse data = Some msg ->
  nullish msg = true ->
  on_message data w = console_error "Error processing message:" TypeError w.
Proof.
  intros H Hn.
  unfold onMessage, try_catch, bindM at 1 2, eval_expr at 1, eval at 1, parse.
  rewrite H. rewrite handlePositionReport_nullish by assumption. reflexivity.
Qed.

(** The handler on a message that passes the tests of the position
    branch. *)
Lemma onMessage_position data msg w :
  JSON_parse data = Some msg ->
  is_position msg = true ->
  position_guard msg = true ->
  on_message data w =
    try_catch
      (_ <- query (position_insert msg) ;;
       _ <- query (position_upsert msg) ;;
       ret tt)
      (fun e => console_error "Error processing message:" e) w.
Proof.
  intros H Hk Hg.
  assert (Hmsg : nullish msg = false).
  { unfold is_position in Hk. apply andb_prop in Hk as [Hk _].
    exact (strict_eq_str_not_nullish _ _ _ Hk). }
  assert (Hs : is_static msg && static_guard msg = false).
  { unfold is_position in Hk. apply andb_prop in Hk as [Hk _].
    unfold is_static. pose proof (kind_exclusive (MessageType msg)) as E.
    rewrite Hk in E. simpl in E. rewrite E. reflexivity. }
  unfold onMessage, try_catch, bindM at 1 2, eval_expr at 1, eval at 1, parse.
  rewrite H. rewrite handlePositionReport_run by assumption.
  destruct ((_ <- query (position_insert msg) ;;
             _ <- query (position_upsert msg) ;; ret tt) w) as [[[]|e] w'].
  - rewrite handleShipStaticData_skip by assumption. reflexivity.
  - reflexivity.
Qed.

(** The handler on a message that passes the tests of the static
    branch. *)
Lemma onMessage_static data msg w :
  JSON_parse data = Some msg ->
  is_static msg = true ->
  static_guard msg = true ->
  on_message data w =
    try_catch
      (_ <- query (static_upsert rev msg) ;; ret tt)
      (fun e => console_error "Error processing message:" e) w.
Proof.
  intros H Hk Hg.
  assert (Hmsg : nullish msg = false).
  { unfold is_static in Hk. apply andb_prop in Hk as [Hk _].
    exact (strict_eq_str_not_nullish _ _ _ Hk). }
  assert (Hs : is_position msg && position_guard msg = false).
  { unfold is_static in Hk. apply andb_prop in Hk as [Hk _].
    unfold is_position. pose proof (kind_exclusive (MessageType msg)) as E.
    rewrite Hk, andb_true_r in E. rewrite E. reflexivity. }
  unfold onMessage, try_catch, bindM at 1 2, eval_expr at 1, eval at 1, parse.
  rewrite H. rewrite handlePositionReport_skip by assumption.
  rewrite handleShipStaticData_run by assumption. reflexivity.
Qed.

(** The handler on a message that passes the tests of neither
    branch: nothing is sent and nothing is logged. *)
Lemma onMessage_skip data msg w :
  JSON_parse data = Some msg ->
  nullish msg = false ->
  is_position msg && position_guard msg = false ->
  is_static msg && static_guard msg = false ->
  on_message data w = (Return tt, w).
Proof.
  intros H Hmsg Hp Hs.
  unfold onMessage, try_catch, bindM at 1 2, eval_expr at 1, eval at 1, parse.
  rewrite H. rewrite handlePositionReport_skip by assumption.
  rewrite handleShipStaticData_skip by assumption. reflexivity.
Qed.

End Evaluation.

(** ** What a statement does to the world *)

Section Statements.

Variable clock : nat -> Z.
Variable pg_accepts : nat -> Stmt -> bool.
Variable pg_database_size : Database -> Z.

Local Abbreviation query := (pool_query clock pg_accepts pg_database_size).

Lemma pool_query_accepted s w r d :
  pg_accepts (tx w) s = true ->
  exec (clock (tx w)) (pg_database_size (db w)) s (db w) = Some (r, d) ->
  query s w = (Return r, sent w d).
Proof. intros Ha He. unfold pool_query. rewrite Ha, He. reflexivity. Qed.

Lemma pool_query_rejected s w :
  pg_accepts (tx w) s = false ->
  query s w = (Throw DatabaseError, sent w (db w)).
Proof. intros Ha. unfold pool_query. rewrite Ha. reflexivity. Qed.

(** Whatever PostgreSQL answers, one statement has been sent, the
    console is as before, and the tables are either as before or as the
    statement leaves them. *)
Lemma pool_query_cases s w :
  (exists r d,
      exec (clock (tx w)) (pg_database_size (db w)) s (db w) = Some (r, d)
      /\ query s w = (Return r, sent w d))
  \/ query s w = (Throw DatabaseError, sent w (db w)).
Proof.
  unfold pool_query. destruct (pg_accepts (tx w) s); [|right; reflexivity].
  destruct (exec _ _ s (db w)) as [[r d]|]; [left; eauto | right; reflexivity].
Qed.

End Statements.

(** ** Properties of the ingestion pipeline *)

Section Ingestion.

Variable clock : nat -> Z.
Variable pg_accepts : nat -> Stmt -> bool.
Variable pg_database_size : Database -> Z.
Variable JSON_parse : string -> option value.
Variable rev : Revision.

Local Abbreviation query := (pool_query clock pg_accepts pg_database_size).
Local Abbreviation on_message :=
  (onMessage clock pg_accepts pg_database_size JSON_parse rev).

Lemma console_error_world text e w :
  console_error text e w =
    (Return tt, {| db := db w; tx := tx w; console := console w ++ [error text e] |}).
Proof. reflexivity. Qed.

(** The handler never throws: its promise always resolves. *)
Lemma onMessage_returns data w : fst (on_message data w) = Return tt.
Proof.
  unfold onMessage, try_catch.
  destruct ((msg <- eval_expr (parse JSON_parse data) ;;
             _ <- handlePositionReport clock pg_accepts pg_database_size msg ;;
             handleShipStaticData clock pg_accepts pg_database_size rev msg) w)
    as [[[]|e] w']; reflexivity.
Qed.

Lemma truthy_has_key msg : ToBoolean (MMSI msg) = true -> ~ no_identity_key msg.
Proof.
  intros H [Hn|Hs].
  - apply truthy_not_nullish in H. congruence.
  - rewrite Hs in H. discriminate.
Qed.

Lemma nullish_falsy v : nullish v = true -> ToBoolean v = false.
Proof. destruct v; simpl; intros H; try discriminate; reflexivity. Qed.

(** C2. A frame that is not JSON, a position report without identity
    key or without one of its coordinates, and a static report without
    identity key, write no row to either table: no statement is sent at
    all.  And whatever the frame, the handler returns: no exception
    leaves it. *)
Theorem C2_incomplete_message_writes_nothing :
  (forall data w,
      fst (onMessage clock pg_accepts pg_database_size JSON_parse rev data w)
      = Return tt)
  /\ (forall data w,
        JSON_parse data = None
        \/ (exists msg, JSON_parse data = Some msg /\ lacks_required_fields msg) ->
        let after :=
          onMessage clock pg_accepts pg_database_size JSON_parse rev data w in
        fst after = Return tt /\ db (snd after) = db w /\ tx (snd after) = tx w).
Proof.
  split; [exact onMessage_returns|].
  intros data w H after. subst after. split; [apply onMessage_returns|].
  destruct H as [H|(msg & H & L)].
  - rewrite onMessage_malformed by assumption. split; reflexivity.
  - assert (Hmsg : nullish msg = false).
    { destruct L as [[L _]|[L _]]; unfold MessageType in L;
        destruct msg; simpl in L; try discriminate; reflexivity. }
    assert (Hkey : no_identity_key msg -> ToBoolean (MMSI msg) = false).
    { intros [Hn|Hs]; [apply nullish_falsy; assumption | rewrite Hs; reflexivity]. }
    rewrite (onMessage_skip _ _ _ _ _ data msg w H Hmsg); [split; reflexivity | |].
    + destruct L as [[L1 L2]|[L1 L2]].
      * unfold position_guard.
        destruct L2 as [L2|[L2|L2]].
        -- rewrite (Hkey L2). simpl. apply andb_false_r.
        -- rewrite (nullish_falsy _ L2). rewrite andb_false_r. simpl.
           apply andb_false_r.
        -- rewrite (nullish_falsy _ L2). rewrite !andb_false_r. reflexivity.
      * unfold is_position. rewrite L1. reflexivity.
    + destruct L as [[L1 L2]|[L1 L2]].
      * unfold is_static. rewrite L1. reflexivity.
      * unfold static_guard. rewrite (Hkey L2). apply andb_false_r.
Qed.

(** *** The vessel rows across one statement *)

Lemma exec_position_upsert_frame now size msg d r d' k old :
  exec now size (position_upsert msg) d = Some (r, d') ->
  vessels d !! k = Some old ->
  exists new, vessels d' !! k = Some new /\ descriptive new = descriptive old.
Proof.
  unfold position_upsert. simpl. intros E Hk. injection E as _ <-. simpl.
  destruct (decide (JS.String (MMSI msg) = k)) as [->|Hne].
  - rewrite lookup_insert_eq, Hk. eexists. split; reflexivity.
  - rewrite lookup_insert_ne by assumption. eauto.
Qed.

Lemma exec_position_insert_vessels now size msg d r d' :
  exec now size (position_insert msg) d = Some (r, d') ->
  vessels d' = vessels d.
Proof. unfold position_insert. simpl. intros E. injection E as _ <-. reflexivity. Qed.

Lemma exec_static_upsert_frame now size msg d r d' k old :
  exec now size (static_upsert rev msg) d = Some (r, d') ->
  vessels d !! k = Some old ->
  exists new, vessels d' !! k = Some new /\ positional new = positional old.
Proof.
  unfold static_upsert. simpl. intros E Hk. injection E as _ <-. simpl.
  destruct (decide (JS.String (MMSI msg) = k)) as [->|Hne].
  - rewrite lookup_insert_eq, Hk. eexists. split; reflexivity.
  - rewrite lookup_insert_ne by assumption. eauto.
Qed.

(** C3. Whatever the store answers, a position report leaves name,
    call sign, registry number, vessel type, length and width of every
    existing vessel row as they were, and a static report leaves last
    latitude, longitude, speed, heading and position time as they
    were. *)
Theorem C3_field_merge_isolation data msg w k old :
  JSON_parse data = Some msg ->
  vessels (db w) !! k = Some old ->
  let after := onMessage clock pg_accepts pg_database_size JSON_parse rev data w in
  exists new,
    vessels (db (snd after)) !! k = Some new
    /\ (MessageType msg = Str "PositionReport" -> descriptive new = descriptive old)
    /\ (MessageType msg = Str "ShipStaticData" -> positional new = positional old).
Proof.
  intros H Hk after. subst after.
  destruct (nullish msg) eqn:Hmsg.
  { rewrite (onMessage_nullish _ _ _ _ _ data msg w H Hmsg). simpl. eauto. }
  destruct (is_position msg && position_guard msg) eqn:Hp.
  - apply andb_prop in Hp as [Hp Hg].
    rewrite (onMessage_position _ _ _ _ _ data msg w H Hp Hg).
    assert (Hkind : MessageType msg = Str "PositionReport").
    { unfold is_position in Hp. apply andb_prop in Hp as [Hp _].
      exact (strict_eq_str_true _ _ Hp). }
    assert (Hnot : MessageType msg = Str "ShipStaticData" -> False).
    { rewrite Hkind. discriminate. }
    unfold try_catch, bindM.
    destruct (pool_query_cases clock pg_accepts pg_database_size
                (position_insert msg) w) as [(r1 & d1 & E1 & ->)| ->].
    + pose proof (exec_position_insert_vessels _ _ _ _ _ _ E1) as V1.
      destruct (pool_query_cases clock pg_accepts pg_database_size
                  (position_upsert msg) (sent w d1)) as [(r2 & d2 & E2 & ->)| ->].
      * rewrite <- V1 in Hk.
        destruct (exec_position_upsert_frame _ _ _ _ _ _ k old E2 Hk) as (new & Hn & Hd).
        exists new. simpl. split; [assumption|]. split; [auto | intros F; destruct (Hnot F)].
      * simpl. rewrite V1. exists old. split; [assumption|].
        split; [auto | intros F; destruct (Hnot F)].
    + simpl. exists old. split; [assumption|].
      split; [auto | intros F; destruct (Hnot F)].
  - destruct (is_static msg && static_guard msg) eqn:Hs.
    + apply andb_prop in Hs as [Hs Hg].
      rewrite (onMessage_static _ _ _ _ _ data msg w H Hs Hg).
      assert (Hkind : MessageType msg = Str "ShipStaticData").
      { unfold is_static in Hs. apply andb_prop in Hs as [Hs _].
        exact (strict_eq_str_true _ _ Hs). }
      assert (Hnot : MessageType msg = Str "PositionReport" -> False).
      { rewrite Hkind. discriminate. }
      unfold try_catch, bindM.
      destruct (pool_query_cases clock pg_accepts pg_database_size
                  (static_upsert rev msg) w) as [(r1 & d1 & E1 & ->)| ->].
      * destruct (exec_static_upsert_frame _ _ _ _ _ _ k old E1 Hk) as (new & Hn & Hd).
        exists new. simpl. split; [assumption|]. split; [intros F; destruct (Hnot F) | auto].
      * simpl. exists old. split; [assumption|].
        split; [intros F; destruct (Hnot F) | auto].
    + rewrite (onMessage_skip _ _ _ _ _ data msg w H Hmsg Hp Hs). simpl. eauto.
Qed.

(** *** Position reports *)

Lemma exec_position_insert now size msg d :
  exec now size (position_insert msg) d =
    Some ({| rowCount := 1; rows := [] |},
          {| vessels := vessels d;
             ais_positions :=
               (ais_positions d ++ [position_row now (ais_positions_id_seq d) msg])%list;
             ais_positions_id_seq := ais_positions_id_seq d + 1 |}).
Proof. reflexivity. Qed.


(** When the upsert is accepted too, the vessel row of the identity
    key holds the coordinates of the report, and its speed and heading
    or 0 in their place. *)
Lemma position_report_upserted data msg w :
  JSON_parse data = Some msg ->
  is_position msg = true ->
  position_guard msg = true ->
  pg_accepts (tx w) (position_insert msg) = true ->
  pg_accepts (S (tx w)) (position_upsert msg) = true ->
  exists v,
    vessels (db (snd (on_message data w))) !! JS.String (MMSI msg) = Some v
    /\ Vessel.last_latitude v = field (PositionReport msg) "Latitude"
    /\ Vessel.last_longitude v = field (PositionReport msg) "Longitude"
    /\ Vessel.last_speed v = or_else (field (PositionReport msg) "Sog") (int 0)
    /\ Vessel.last_heading v = or_else (field (PositionReport msg) "TrueHeading") (int 0).
Proof.
  intros H Hp Hg Ha Hb.
  rewrite (onMessage_position _ _ _ _ _ data msg w H Hp Hg).
  unfold try_catch, bindM.
  rewrite (pool_query_accepted _ _ _ _ _ _ _ Ha (exec_position_insert _ _ _ _)).
  unfold pool_query. cbn [tx sent db]. rewrite Hb.
  unfold position_upsert. cbn [exec]. cbn [snd db vessels ret].
  rewrite lookup_insert_eq. eexists. split; [reflexivity|].
  destruct (vessels (db w) !! JS.String (MMSI msg)); repeat split; reflexivity.
Qed.




(** *** Static reports *)

Lemma exec_static_upsert now size msg d :
  exec now size (static_upsert rev msg) d =
    Some ({| rowCount := 1; rows := [] |},
          {| vessels := <[JS.String (MMSI msg) :=
                            static_row rev now msg (vessels d !! JS.String (MMSI msg))]>
                          (vessels d);
             ais_positions := ais_positions d;
             ais_positions_id_seq := ais_positions_id_seq d |}).
Proof. reflexivity. Qed.







End Ingestion.

(** ** Properties of the retention manager *)

Global Instance older_transitive : Transitive Position.older.
Proof. intros a b c. unfold Position.older. lia. Qed.

Global Instance older_total : Total Position.older.
Proof. intros a b. unfold Position.older. lia. Qed.

Lemma NoDup_fmap_inj_on {A B} (f : A -> B) (l : list A) x y :
  NoDup (f <$> l) -> x ∈ l -> y ∈ l -> f x = f y -> x = y.
Proof.
  induction l as [|a l IH]; intros Hnd Hx Hy E.
  - inversion Hx.
  - rewrite fmap_cons in Hnd. apply NoDup_cons in Hnd as [Ha Hnd].
    apply elem_of_cons in Hx as [->|Hx]; apply elem_of_cons in Hy as [->|Hy].
    + reflexivity.
    + exfalso. apply Ha. rewrite E. apply list_elem_of_fmap_2. assumption.
    + exfalso. apply Ha. rewrite <- E. apply list_elem_of_fmap_2. assumption.
    + apply IH; assumption.
Qed.

Lemma filter_all {A} (P : A -> Prop) `{forall x, Decision (P x)} (l : list A) :
  (forall x, x ∈ l -> P x) -> filter P l = l.
Proof.
  induction l as [|a l IH]; intros Hall; [reflexivity|].
  rewrite filter_cons_True by (apply Hall; left).
  f_equal. apply IH. intros x Hx. apply Hall. right. assumption.
Qed.

Lemma filter_none {A} (P : A -> Prop) `{forall x, Decision (P x)} (l : list A) :
  (forall x, x ∈ l -> ~ P x) -> filter P l = [].
Proof.
  induction l as [|a l IH]; intros Hall; [reflexivity|].
  rewrite filter_cons_False by (apply Hall; left).
  apply IH. intros x Hx. apply Hall. right. assumption.
Qed.

(** DELETE ... WHERE id IN (SELECT id ... ORDER BY created_at ASC LIMIT n)
    on a table with unique ids removes the first [n] rows of the table in
    the order of created_at, and those only. *)
Lemma delete_oldest_rows (table : list Position.row) (n : nat) :
  NoDup (Position.id <$> table) ->
  let sorted := merge_sort Position.older table in
  let kept := filter (fun r => Position.id r ∉ Position.id <$> take n sorted) table in
  kept ≡ₚ drop n sorted
  /\ table ≡ₚ take n sorted ++ kept
  /\ (forall x y, x ∈ take n sorted -> y ∈ kept -> Position.older x y).
Proof.
  intros Hids sorted kept.
  assert (Hperm : sorted ≡ₚ table) by apply merge_sort_Permutation.
  assert (Hnd : NoDup sorted).
  { rewrite Hperm. eapply NoDup_fmap_1. exact Hids. }
  assert (Hsplit : take n sorted ++ drop n sorted = sorted) by apply take_drop.
  assert (Hdisj : forall x, x ∈ take n sorted -> x ∉ drop n sorted).
  { rewrite <- Hsplit in Hnd. apply NoDup_app in Hnd as (_ & Hd & _). exact Hd. }
  assert (Hin : forall x, x ∈ sorted -> x ∈ table).
  { intros x Hx. rewrite <- Hperm. exact Hx. }
  set (P := fun r => Position.id r ∉ Position.id <$> take n sorted) in kept.
  assert (Hf : filter P (take n sorted ++ drop n sorted) = drop n sorted).
  { rewrite filter_app.
    rewrite (filter_none P (take n sorted)).
    - rewrite (filter_all P (drop n sorted)); [reflexivity|].
      intros x Hx Hid.
      apply list_elem_of_fmap_1 in Hid as (y & E & Hy).
      assert (x = y).
      { apply (NoDup_fmap_inj_on Position.id table); try assumption.
        - apply Hin. rewrite <- Hsplit. apply elem_of_app. right. assumption.
        - apply Hin. rewrite <- Hsplit. apply elem_of_app. left. assumption. }
      subst y. exact (Hdisj x Hy Hx).
    - intros x Hx Hid. apply Hid. apply list_elem_of_fmap_2. assumption. }
  rewrite Hsplit in Hf.
  assert (Hkept : kept ≡ₚ drop n sorted).
  { rewrite <- Hf. unfold kept. apply (filter_Permutation P). symmetry. exact Hperm. }
  split; [exact Hkept|]. split.
  - rewrite Hkept, Hsplit. symmetry. exact Hperm.
  - intros x y Hx Hy. rewrite Hkept in Hy.
    eapply (StronglySorted_app_1_elem_of Position.older (take n sorted) (drop n sorted));
      try eassumption.
    rewrite Hsplit. apply StronglySorted_merge_sort; apply _.
Qed.

(** The arithmetic of the size test and of the count to delete. *)
Lemma sizeGB_above_70 (size : Z) :
  number_gt (number_div (Fin (inject_Z size)) (Fin (inject_Z (1024 * 1024 * 1024))))
            (Fin (inject_Z 70))
  = (70 * 2 ^ 30 <? size).
Proof.
  unfold number_gt, number_div.
  change (Qeq_bool (inject_Z (1024 * 1024 * 1024)) 0) with false. cbv iota.
  change (1024 * 1024 * 1024) with 1073741824.
  change (70 * 2 ^ 30) with 75161927680.
  assert (E : (inject_Z size / inject_Z 1073741824 <= inject_Z 70)%Q
              <-> size <= 75161927680).
  { unfold Qle, Qdiv, Qmult, Qinv, inject_Z. cbn [Qnum Qden].
    change (Z.pos (1 * 1073741824)) with 1073741824.
    rewrite !Z.mul_1_r. change (70 * 1073741824) with 75161927680. reflexivity. }
  destruct (Z.ltb_spec 75161927680 size) as [Hlt|Hge].
  - apply negb_true_iff. apply not_true_is_false. intros Hle.
    apply Qle_bool_iff in Hle. apply E in Hle. lia.
  - apply negb_false_iff. apply Qle_bool_iff. apply E. lia.
Qed.

Lemma tenth_ceiling (n : Z) :
  Math_ceil (number_mul (Fin (inject_Z n)) (Fin (1 # 10)))
  = Fin (inject_Z (- (- n / 10))).
Proof.
  unfold Math_ceil, number_mul, Qceiling, Qfloor, Qopp, Qmult, inject_Z. simpl.
  change (Z.pos (1 * 10)) with 10. rewrite Z.mul_1_r. reflexivity.
Qed.

Lemma limit_of_int (k : Z) : 0 <= k -> limit_of (int k) = Some (Z.to_nat k).
Proof.
  intros Hk. unfold limit_of, int.
  rewrite Qcanon.Qred_identity by (unfold inject_Z; simpl; apply Z.gcd_1_r).
  unfold inject_Z. simpl.
  destruct (Z.leb_spec 0 k); [reflexivity | lia].
Qed.

Section Retention.

Variable clock : nat -> Z.
Variable pg_accepts : nat -> Stmt -> bool.
Variable pg_database_size : Database -> Z.

Local Abbreviation query := (pool_query clock pg_accepts pg_database_size).
Local Abbreviation by_age := (delete_by_age clock pg_accepts pg_database_size).
Local Abbreviation by_size := (delete_by_size clock pg_accepts pg_database_size).

(** C5. The age step deletes the history rows whose created_at lies
    more than 48 hours before the time of the statement, and no other
    row: the rows that remain are the others, in their order, and the
    count that is logged is the number of rows that went. *)
Theorem C5_age_step_deletes_rows_older_than_48_hours w :
  pg_accepts (tx w) delete_older_than_48_hours = true ->
  let now := clock (tx w) in
  let before := ais_positions (db w) in
  let result := delete_by_age clock pg_accepts pg_database_size w in
  let after := ais_positions (db (snd result)) in
  fst result = Return tt
  /\ (forall r,
        r ∈ after <-> r ∈ before /\ ~ (hours 48 < now - Position.created_at r))
  /\ after `sublist_of` before
  /\ vessels (db (snd result)) = vessels (db w)
  /\ console (snd result) =
       console w
         ++ [log "Deleted ${deleteResult.rowCount} records older than 48 hours"
               [int (Z.of_nat (length before) - Z.of_nat (length after))]].
Proof.
  intros Ha now before result after. subst after result.
  assert (E : by_age w =
    (Return tt,
     {| db := {| vessels := vessels (db w);
                 ais_positions :=
                   filter (fun r => ¬ (Position.created_at r < now - hours 48)) before;
                 ais_positions_id_seq := ais_positions_id_seq (db w) |};
        tx := S (tx w);
        console := console w
          ++ [log "Deleted ${deleteResult.rowCount} records older than 48 hours"
                [int (row_count before
                        (filter (fun r => ¬ (Position.created_at r < now - hours 48))
                                before))]] |})).
  { unfold delete_by_age, bindM.
    erewrite pool_query_accepted; [|exact Ha|reflexivity]. reflexivity. }
  rewrite E. cbn [fst snd db ais_positions vessels console].
  split; [reflexivity|]. split; [|split; [|split]].
  - intros r. rewrite list_elem_of_filter. split.
    + intros [H1 H2]. split; [assumption | lia].
    + intros [H1 H2]. split; [lia | assumption].
  - apply sublist_filter.
  - reflexivity.
  - reflexivity.
Qed.

Lemma ceiling_tenth_bounds (n : Z) : n <= 10 * - (- n / 10) < n + 10.
Proof.
  pose proof (Z.div_mod (- n) 10 ltac:(lia)) as E.
  pose proof (Z.mod_pos_bound (- n) 10 ltac:(lia)) as B.
  lia.
Qed.

(** C6. When the measured database size is above 70 GiB, the size
    step deletes ceil(n / 10) of the n history rows counted at that
    moment, and every deleted row is at least as old, by created_at, as
    every row that remains; when the size is at most 70 GiB it deletes
    nothing. *)
Theorem C6_size_step_deletes_oldest_tenth w :
  (forall n s, pg_accepts n s = true) ->
  NoDup (Position.id <$> ais_positions (db w)) ->
  let size := pg_database_size (db w) in
  let before := ais_positions (db w) in
  let result := delete_by_size clock pg_accepts pg_database_size w in
  let after := ais_positions (db (snd result)) in
  fst result = Return tt
  /\ vessels (db (snd result)) = vessels (db w)
  /\ (size <= 70 * 2 ^ 30 -> after = before)
  /\ (70 * 2 ^ 30 < size ->
      exists deleted,
        before ≡ₚ deleted ++ after
        /\ after `sublist_of` before
        /\ (let n := Z.of_nat (length before) in
            let k := Z.of_nat (length deleted) in
            n <= 10 * k < n + 10)
        /\ (forall x y, x ∈ deleted -> y ∈ after ->
              Position.created_at x <= Position.created_at y)).
Proof.
  intros Ha Hids size before result after.
  subst after result. unfold delete_by_size, bindM.
  erewrite pool_query_accepted; [|apply Ha|reflexivity].
  cbn [eval_expr eval first_row rows nth member lit bind get own].
  change (String.eqb "size" "size") with true. cbv iota.
  cbn [ToNumber int console_log sent db tx console].
  fold size. rewrite sizeGB_above_70.
  destruct (Z.ltb_spec (70 * 2 ^ 30) size) as [Hlt|Hge].
  - cbn [console_log].
    erewrite pool_query_accepted; [|apply Ha|reflexivity].
    cbn [eval_expr eval first_row rows nth member lit bind get own].
    change (String.eqb "count" "count") with true. cbv iota.
    cbn [ToNumber int sent db tx console].
    rewrite tenth_ceiling.
    fold before. set (n := Z.of_nat (length before)).
    pose proof (ceiling_tenth_bounds n) as Hk.
    set (k := - (- n / 10)) in *.
    assert (Hk0 : 0 <= k) by (subst n; lia).
    unfold pool_query. rewrite Ha. cbn [exec sent db tx console].
    fold (int k). rewrite (limit_of_int k Hk0).
    cbn [fst snd db vessels ais_positions].
    fold before.
    destruct (delete_oldest_rows before (Z.to_nat k) Hids) as (Hkept & Hperm & Hold).
    split; [reflexivity|]. split; [reflexivity|]. split; [lia|].
    intros _. exists (take (Z.to_nat k) (merge_sort Position.older before)).
    split; [exact Hperm|]. split; [apply sublist_filter|]. split; [|exact Hold].
    rewrite length_take_le.
    + rewrite Z2Nat.id by assumption. exact Hk.
    + rewrite (merge_sort_Permutation Position.older before). subst n. lia.
  - cbn [fst snd ret db vessels ais_positions].
    split; [reflexivity|]. split; [reflexivity|]. split; [reflexivity | lia].
Qed.

End Retention.

(** ** Properties of the history route *)


Lemma digit_value_char (d : N) :
  (d < 10)%N -> digit_value 10 (pretty_N_char d) = Some (Z.of_N d).
Proof.
  intros H.
  assert (d = 0 \/ d = 1 \/ d = 2 \/ d = 3 \/ d = 4 \/ d = 5 \/ d = 6 \/ d = 7
          \/ d = 8 \/ d = 9)%N as E by lia.
  repeat (destruct E as [->|E]; [reflexivity|]). subst d. reflexivity.
Qed.

Lemma read_digits_pretty (x : N) (s : string) :
  (0 < x)%N ->
  read_digits 10 None (pretty_N_go x s) = read_digits 10 (Some (Z.of_N x)) s.
Proof.
  revert s. induction (N.lt_wf_0 x) as [x _ IH]. intros s Hx.
  rewrite pretty_N_go_step by assumption.
  destruct (N.ltb_spec x 10) as [Hlt|Hge].
  - rewrite (N.div_small x 10) by assumption. rewrite pretty_N_go_0.
    rewrite N.mod_small by assumption.
    cbn [read_digits]. rewrite digit_value_char by assumption.
    reflexivity.
  - rewrite IH.
    + cbn [read_digits].
      rewrite digit_value_char by (apply N.mod_upper_bound; lia).
      cbn [default].
      assert (E : 10 * Z.of_N (x `div` 10) + Z.of_N (x `mod` 10) = Z.of_N x).
      { rewrite N2Z.inj_div, N2Z.inj_mod.
        pose proof (Z.div_mod (Z.of_N x) 10 ltac:(lia)). lia. }
      unfold id. rewrite E. reflexivity.
    + apply N.div_lt; lia.
    + apply N.div_str_pos. lia.
Qed.

(** A positive numeral starts with one of the digits 1 to 9. *)
Lemma pretty_leading_digit (x : N) (s : string) :
  (0 < x)%N ->
  exists d r, pretty_N_go x s = String.String (pretty_N_char d) r
              /\ (0 < d < 10)%N.
Proof.
  revert s. induction (N.lt_wf_0 x) as [x _ IH]. intros s Hx.
  rewrite pretty_N_go_step by assumption.
  destruct (N.ltb_spec x 10) as [Hlt|Hge].
  - rewrite (N.div_small x 10) by assumption. rewrite pretty_N_go_0.
    rewrite N.mod_small by assumption. exists x, s. split; [reflexivity | lia].
  - apply IH.
    + apply N.div_lt; lia.
    + apply N.div_str_pos. lia.
Qed.

Lemma parseInt_decimal (n : Z) : 0 < n -> parseInt (Str (decimal n)) = Fin (inject_Z n).
Proof.
  intros Hn. destruct n as [|p|p]; try lia.
  change (decimal (Z.pos p)) with (pretty_N (N.pos p)). unfold pretty_N.
  destruct (decide (N.pos p = 0)%N) as [E|_]; [discriminate E|].
  unfold parseInt. cbn [ToString].
  destruct (pretty_leading_digit (N.pos p) "" ltac:(lia)) as (d & r & E & Hd).
  assert (T : trim_start (pretty_N_go (N.pos p) "") = pretty_N_go (N.pos p) ""
              /\ strip_sign (pretty_N_go (N.pos p) "") = (1, pretty_N_go (N.pos p) "")
              /\ strip_radix (pretty_N_go (N.pos p) "") = (10, pretty_N_go (N.pos p) "")).
  { rewrite E.
    assert (d = 1 \/ d = 2 \/ d = 3 \/ d = 4 \/ d = 5 \/ d = 6 \/ d = 7
            \/ d = 8 \/ d = 9)%N as C by lia.
    repeat (destruct C as [->|C]; [repeat split; reflexivity|]).
    subst d. repeat split; reflexivity. }
  destruct T as (-> & -> & ->).
  rewrite read_digits_pretty by lia. cbn [read_digits].
  rewrite Z.mul_1_l. reflexivity.
Qed.


(** ** The primary key of the history table *)


Lemma empty_database_ids_unique : ids_unique empty_database.
Proof. split; constructor. Qed.

(** ** The properties on sample data *)

(** C1. A position report with identity key 366999712 and the non-null
    coordinates (0, -90.1234) appends no history row and touches no
    vessel row: the handler returns with the world as it was. *)
Theorem C1_report_on_the_equator_is_dropped clock pg_accepts pg_database_size rev data w :
  let msg := equator_report in
  MessageType msg = Str "PositionReport"
  /\ MMSI msg = int 366999712
  /\ field (PositionReport msg) "Latitude" = int 0
  /\ field (PositionReport msg) "Longitude" = Num (Fin (-901234 # 10000))
  /\ onMessage clock pg_accepts pg_database_size (fun _ => Some msg) rev data w
     = (Return tt, w).
Proof.
  intros msg. do 4 (split; [reflexivity|]).
  apply (onMessage_skip _ _ _ _ _ data msg w); reflexivity.
Qed.



Lemma C2_witness :
  lacks_required_fields report_without_key
  /\ (let after :=
        onMessage sample_clock accept_all size_below
          (fun _ => Some report_without_key) part_001 "thames-clipper" fresh_world in
      fst after = Return tt
      /\ db (snd after) = db fresh_world
      /\ tx (snd after) = tx fresh_world).
Proof.
  assert (L : lacks_required_fields report_without_key).
  { left. split; [reflexivity|]. left. left. reflexivity. }
  split; [exact L|].
  apply (proj2 (C2_incomplete_message_writes_nothing sample_clock accept_all size_below
                  (fun _ => Some report_without_key) part_001)).
  right. exists report_without_key. split; [reflexivity | exact L].
Defined.

Lemma C3_witness :
  vessels (db world_with_vessel) !! "601234500" = Some cape_town_vessel
  /\ exists new,
       vessels (db (snd (onMessage sample_clock accept_all size_below
                           (fun _ => Some yacht_static_report) part_001
                           "sea-breeze" world_with_vessel)))
         !! "601234500" = Some new
       /\ positional new = positional cape_town_vessel.
Proof.
  assert (Hk : vessels (db world_with_vessel) !! "601234500" = Some cape_town_vessel)
    by (vm_compute; reflexivity).
  split; [exact Hk|].
  destruct (C3_field_merge_isolation sample_clock accept_all size_below
              (fun _ => Some yacht_static_report) part_001
              "sea-breeze" yacht_static_report world_with_vessel
              "601234500" cape_town_vessel eq_refl Hk) as (new & Hn & _ & Hpos).
  exists new. split; [exact Hn|]. apply Hpos. reflexivity.
Defined.


Lemma C5_witness :
  let after := snd (delete_by_age (fun _ => noon) accept_all size_below world_72h_1h) in
  ais_positions (db after) = [history_row 2 (noon - hours 1)]
  /\ (forall r, r ∈ ais_positions (db after) <->
                r ∈ ais_positions (db world_72h_1h)
                /\ ~ (hours 48 < noon - Position.created_at r)).
Proof.
  split; [vm_compute; reflexivity|].
  exact (proj1 (proj2 (C5_age_step_deletes_rows_older_than_48_hours
                         (fun _ => noon) accept_all size_below world_72h_1h eq_refl))).
Defined.

Lemma C6_witness :
  NoDup (Position.id <$> ais_positions (db world_eleven_rows))
  /\ (let after := ais_positions
                     (db (snd (delete_by_size sample_clock accept_all size_above
                                 world_eleven_rows))) in
      length after = 9%nat
      /\ exists deleted,
           ais_positions (db world_eleven_rows) ≡ₚ deleted ++ after
           /\ after `sublist_of` ais_positions (db world_eleven_rows)
           /\ 11 <= 10 * Z.of_nat (length deleted) < 11 + 10
           /\ (forall x y, x ∈ deleted -> y ∈ after ->
                 Position.created_at x <= Position.created_at y)).
Proof.
  assert (Hids : NoDup (Position.id <$> ais_positions (db world_eleven_rows))).
  { apply (bool_decide_unpack _). vm_compute. reflexivity. }
  split; [exact Hids|].
  split; [vm_compute; reflexivity|].
  apply (C6_size_step_deletes_oldest_tenth sample_clock accept_all size_above
           world_eleven_rows (fun _ _ => eq_refl) Hids).
  vm_compute. reflexivity.
Defined.





(** *** Further evaluations *)

(** The report of the specification's scenario: both rows are written. *)
Example cape_town_report_is_stored :
  let w := snd (onMessage sample_clock accept_all size_below
                  (fun _ => Some (cape_town_report None)) part_001 "cape-town"
                  fresh_world) in
  ais_positions (db w) = [history_row 1 noon]
  /\ vessels (db w) !! "601234500" = Some cape_town_vessel.
Proof. split; vm_compute; reflexivity. Qed.

(** A static report without dimensions stores NULL for both. *)
Example no_dimension_is_null :
  dimension_of (Obj [("Name", Str "SEA BREEZE")]) "A" "B" = Null.
Proof. reflexivity. Qed.

(** index.js stores the type of a sailing yacht as 'yacht', the other
    revision as reported. *)
Example vessel_type_of_a_yacht :
  vessel_type_param index_js "36" = "yacht"%string
  /\ vessel_type_param part_001 "36" = "36"%string.
Proof. split; reflexivity. Qed.

(** parseInt reads a leading integer and stops at the first character
    that is not a digit. *)
Example parseInt_examples :
  parseInt (Str "25") = Fin (inject_Z 25)
  /\ parseInt (Str "12abc") = Fin (inject_Z 12)
  /\ parseInt (Str " -7") = Fin (inject_Z (-7))
  /\ parseInt (Str "0x1F") = Fin (inject_Z 31)
  /\ parseInt (Str "abc") = NaN
  /\ parseInt Undefined = NaN.
Proof. repeat split; reflexivity. Qed.

(** ** What the handler and the clean-up can do to the tables *)




Lemma empty_database_consistent : consistent empty_database.
Proof.
  split; [apply empty_database_ids_unique|]. split.
  - intros k r H. cbn in H. rewrite lookup_empty in H. discriminate H.
  - constructor.
Qed.

Section Footprint.

Variable clock : nat -> Z.
Variable pg_accepts : nat -> Stmt -> bool.
Variable pg_database_size : Database -> Z.
Variable JSON_parse : string -> option value.
Variable rev : Revision.
Variable A : Stmt -> bool.

Lemma sends_ret {X} (x : X) : sends_only A (ret x).
Proof. intros R Hr _ _ w. apply Hr. Qed.

Lemma sends_eval {X} (c : completion X) : sends_only A (eval c).
Proof. intros R Hr _ _ w. apply Hr. Qed.

Lemma sends_eval_expr e : sends_only A (eval_expr e).
Proof. apply sends_eval. Qed.

Lemma sends_console_log text args : sends_only A (console_log text args).
Proof. intros R Hr _ _ w. apply Hr. Qed.

Lemma sends_console_error text e : sends_only A (console_error text e).
Proof. intros R Hr _ _ w. apply Hr. Qed.

Lemma sends_pool_query s :
  A s = true -> sends_only A (pool_query clock pg_accepts pg_database_size s).
Proof.
  intros HA R Hr _ Hs w.
  destruct (pool_query_cases clock pg_accepts pg_database_size s w)
    as [(r & d & E & ->)| ->]; cbn [snd sent db].
  - eapply Hs; eassumption.
  - apply Hr.
Qed.

Lemma sends_bind {X Y} (c : M X) (k : X -> M Y) :
  sends_only A c -> (forall x, sends_only A (k x)) -> sends_only A (bindM c k).
Proof.
  intros Hc Hk R Hr Ht Hs w. unfold bindM.
  pose proof (Hc R Hr Ht Hs w) as H1.
  destruct (c w) as [[x|e] w1]; cbn [snd] in *.
  - eapply Ht; [exact H1|]. apply (Hk x R Hr Ht Hs).
  - exact H1.
Qed.

Lemma sends_try_catch {X} (body : M X) (handler : exn -> M X) :
  sends_only A body -> (forall e, sends_only A (handler e)) ->
  sends_only A (try_catch body handler).
Proof.
  intros Hb Hh R Hr Ht Hs w. unfold try_catch.
  pose proof (Hb R Hr Ht Hs w) as H1.
  destruct (body w) as [[x|e] w1]; cbn [snd] in *.
  - exact H1.
  - eapply Ht; [exact H1|]. apply (Hh e R Hr Ht Hs).
Qed.

Lemma sends_when c body : sends_only A body -> sends_only A (when c body).
Proof.
  intros Hb. unfold when. apply sends_bind; [apply sends_eval_expr|].
  intros v. destruct (ToBoolean v); [exact Hb | apply sends_ret].
Qed.

End Footprint.

Ltac sends :=
  repeat (intros;
          first [ apply sends_when
                | apply sends_bind
                | apply sends_try_catch
                | apply sends_ret
                | apply sends_eval_expr
                | apply sends_eval
                | apply sends_console_log
                | apply sends_console_error
                | apply sends_pool_query; reflexivity
                | match goal with
                  | |- sends_only _ (if ?b then _ else _) => destruct b
                  end ]).

Section HandlerEffects.

Variable clock : nat -> Z.
Variable pg_accepts : nat -> Stmt -> bool.
Variable pg_database_size : Database -> Z.
Variable JSON_parse : string -> option value.
Variable rev : Revision.


Lemma cleanupOldData_sends_retention :
  sends_only is_retention (cleanupOldData clock pg_accepts pg_database_size).
Proof. unfold cleanupOldData, delete_by_age, delete_by_size. sends. Qed.

End HandlerEffects.

(** ** Every outcome of one message *)

Section Outcomes.

Variable clock : nat -> Z.
Variable pg_accepts : nat -> Stmt -> bool.
Variable pg_database_size : Database -> Z.
Variable JSON_parse : string -> option value.
Variable rev : Revision.

Local Abbreviation query := (pool_query clock pg_accepts pg_database_size).
Local Abbreviation on_message :=
  (onMessage clock pg_accepts pg_database_size JSON_parse rev).

Lemma onMessage_cases data w :
  on_message data w = (Return tt, w)
  \/ (exists e, on_message data w = (Return tt, logged w (error "Error processing message:" e)))
  \/ (exists msg, JSON_parse data = Some msg
                  /\ is_position msg = true /\ position_guard msg = true)
  \/ (exists msg, JSON_parse data = Some msg
                  /\ is_static msg = true /\ static_guard msg = true).
Proof.
  destruct (JSON_parse data) as [msg|] eqn:H.
  - destruct (nullish msg) eqn:Hn.
    + right; left. exists TypeError.
      rewrite (onMessage_nullish _ _ _ _ _ data msg w H Hn). reflexivity.
    + destruct (is_position msg && position_guard msg) eqn:Hp.
      * apply andb_true_iff in Hp as [Hp Hg]. right; right; left. exists msg. auto.
      * destruct (is_static msg && static_guard msg) eqn:Hs.
        -- apply andb_true_iff in Hs as [Hs Hg]. right; right; right. exists msg. auto.
        -- left. apply (onMessage_skip _ _ _ _ _ data msg w H Hn Hp Hs).
  - right; left. exists SyntaxError.
    rewrite (onMessage_malformed _ _ _ _ _ data w H). reflexivity.
Qed.

(** What a report that passes the tests of the position branch leaves
    behind, by the answers of PostgreSQL to its two statements. *)
Lemma onMessage_position_outcome data msg w :
  JSON_parse data = Some msg ->
  is_position msg = true ->
  position_guard msg = true ->
  let d1 := with_history_row
              (position_row (clock (tx w)) (ais_positions_id_seq (db w)) msg) (db w) in
  on_message data w =
    (Return tt,
     if pg_accepts (tx w) (position_insert msg) then
       if pg_accepts (S (tx w)) (position_upsert msg) then
         sent (sent w d1)
           (with_vessel (JS.String (MMSI msg))
              (position_vessel_row (clock (S (tx w))) msg
                 (vessels (db w) !! JS.String (MMSI msg))) d1)
       else failed (sent w d1)
     else failed w).
Proof.
  intros H Hp Hg d1.
  rewrite (onMessage_position _ _ _ _ _ data msg w H Hp Hg).
  unfold try_catch, bindM.
  destruct (pg_accepts (tx w) (position_insert msg)) eqn:Ha.
  - rewrite (pool_query_accepted _ _ _ _ _ _ _ Ha (exec_position_insert _ _ _ _)).
    fold d1.
    destruct (pg_accepts (S (tx w)) (position_upsert msg)) eqn:Hb.
    + unfold pool_query. cbn [tx sent db]. rewrite Hb. reflexivity.
    + rewrite pool_query_rejected by exact Hb. reflexivity.
  - rewrite pool_query_rejected by exact Ha. reflexivity.
Qed.

Lemma onMessage_static_outcome data msg w :
  JSON_parse data = Some msg ->
  is_static msg = true ->
  static_guard msg = true ->
  on_message data w =
    (Return tt,
     if pg_accepts (tx w) (static_upsert rev msg) then
       sent w (with_vessel (JS.String (MMSI msg))
                 (static_row rev (clock (tx w)) msg
                    (vessels (db w) !! JS.String (MMSI msg))) (db w))
     else failed w).
Proof.
  intros H Hs Hg.
  rewrite (onMessage_static _ _ _ _ _ data msg w H Hs Hg).
  unfold try_catch, bindM.
  destruct (pg_accepts (tx w) (static_upsert rev msg)) eqn:Ha.
  - rewrite (pool_query_accepted _ _ _ _ _ _ _ Ha (exec_static_upsert _ _ _ _ _)).
    reflexivity.
  - rewrite pool_query_rejected by exact Ha. reflexivity.
Qed.

End Outcomes.

(** ** Guarantees of the message handler *)

Lemma or_else_truthy v d : ToBoolean d = true -> ToBoolean (or_else v d) = true.
Proof. intros H. unfold or_else. destruct (ToBoolean v) eqn:E; assumption. Qed.




Section Guarantees.

Variable clock : nat -> Z.
Variable pg_accepts : nat -> Stmt -> bool.
Variable pg_database_size : Database -> Z.
Variable JSON_parse : string -> option value.
Variable rev : Revision.


(** X2. History rows are only ever appended by the handler, at most one
    per message, with the next id of the sequence; a message costs at
    most two statements, and the console only grows. *)
Theorem onMessage_appends_at_most_one_row data w :
  let after := snd (onMessage clock pg_accepts pg_database_size JSON_parse rev data w) in
  (ais_positions (db after) = ais_positions (db w)
   /\ ais_positions_id_seq (db after) = ais_positions_id_seq (db w)
   \/ exists r,
        ais_positions (db after) = ais_positions (db w) ++ [r]
        /\ Position.id r = ais_positions_id_seq (db w)
        /\ ais_positions_id_seq (db after) = ais_positions_id_seq (db w) + 1)
  /\ (tx w <= tx after <= tx w + 2)%nat
  /\ exists lines, console after = console w ++ lines.
Proof.
  intros after. subst after.
  destruct (onMessage_cases clock pg_accepts pg_database_size JSON_parse rev data w)
    as [E|[(e & E)|[(msg & H & Hp & Hg)|(msg & H & Hs & Hg)]]].
  - rewrite E. cbn [snd]. split; [left; auto|]. split; [lia|].
    exists []. rewrite app_nil_r. reflexivity.
  - rewrite E. cbn [snd logged db tx console]. split; [left; auto|]. split; [lia|].
    eexists. reflexivity.
  - rewrite (onMessage_position_outcome _ _ _ _ _ data msg w H Hp Hg). cbn [snd].
    destruct (pg_accepts (tx w) (position_insert msg));
      [destruct (pg_accepts (S (tx w)) (position_upsert msg))|];
      cbn [failed logged sent with_vessel with_history_row db tx console
             ais_positions ais_positions_id_seq].
    + split; [right; eexists; repeat split; reflexivity|]. split; [lia|].
      exists []. rewrite app_nil_r. reflexivity.
    + split; [right; eexists; repeat split; reflexivity|]. split; [lia|].
      eexists. reflexivity.
    + split; [left; auto|]. split; [lia|]. eexists. reflexivity.
  - rewrite (onMessage_static_outcome _ _ _ _ _ data msg w H Hs Hg). cbn [snd].
    destruct (pg_accepts (tx w) (static_upsert rev msg));
      cbn [failed logged sent with_vessel db tx console
             ais_positions ais_positions_id_seq].
    + split; [left; auto|]. split; [lia|]. exists []. rewrite app_nil_r. reflexivity.
    + split; [left; auto|]. split; [lia|]. eexists. reflexivity.
Qed.




(** X6. The handler never leaves a vessel row without a name: if every
    vessel row has a name that is neither NULL nor empty, so it is after
    any message. *)
Theorem onMessage_keeps_vessels_named data w :
  named (db w) ->
  named (db (snd (onMessage clock pg_accepts pg_database_size JSON_parse rev data w))).
Proof.
  intros Hn.
  assert (Hins : forall k r d,
             named d -> ToBoolean (Vessel.name r) = true -> named (with_vessel k r d)).
  { intros k r d Hd Hr k' r'. cbn [with_vessel vessels].
    destruct (decide (k = k')) as [->|Hne].
    - rewrite lookup_insert_eq. intros [= <-]. exact Hr.
    - rewrite lookup_insert_ne by assumption. apply Hd. }
  destruct (onMessage_cases clock pg_accepts pg_database_size JSON_parse rev data w)
    as [E|[(e & E)|[(msg & H & Hp & Hg)|(msg & H & Hs & Hg)]]].
  - rewrite E. exact Hn.
  - rewrite E. exact Hn.
  - rewrite (onMessage_position_outcome _ _ _ _ _ data msg w H Hp Hg). cbn [snd].
    destruct (pg_accepts (tx w) (position_insert msg));
      [destruct (pg_accepts (S (tx w)) (position_upsert msg))|];
      cbn [failed logged sent db]; try exact Hn.
    apply Hins; [exact Hn|]. unfold position_vessel_row, upsert_position_row.
    destruct (vessels (db w) !! JS.String (MMSI msg)) as [old|] eqn:Eo;
      cbn [Vessel.name].
    + exact (Hn _ _ Eo).
    + apply or_else_truthy. reflexivity.
  - rewrite (onMessage_static_outcome _ _ _ _ _ data msg w H Hs Hg). cbn [snd].
    destruct (pg_accepts (tx w) (static_upsert rev msg));
      cbn [failed logged sent db]; try exact Hn.
    apply Hins; [exact Hn|]. unfold static_row, upsert_static_row.
    destruct (vessels (db w) !! JS.String (MMSI msg));
      cbn [Vessel.name]; apply or_else_truthy; reflexivity.
Qed.


End Guarantees.

(** ** Guarantees of the static branch, the clean-up and the history query *)

Lemma pruned_refl d : pruned d d.
Proof. repeat split; reflexivity. Qed.

Lemma pruned_trans a b c : pruned a b -> pruned b c -> pruned a c.
Proof.
  intros (V1 & S1 & L1) (V2 & S2 & L2). split; [congruence|]. split; [congruence|].
  etransitivity; eassumption.
Qed.

Lemma exec_retention_pruned now size s d r d' :
  is_retention s = true -> exec now size s d = Some (r, d') -> pruned d d'.
Proof.
  intros Hs E. destruct s; try discriminate Hs; simpl in E;
    try (destruct (limit_of limit); [|discriminate E]);
    injection E as _ <-; try apply pruned_refl;
    (split; [reflexivity|]; split; [reflexivity|]; apply sublist_filter).
Qed.

Lemma parseInt_negative_decimal (n : Z) :
  0 < n -> parseInt (Str ("-" ++ decimal n)%string) = Fin (inject_Z (- n)).
Proof.
  intros Hn. destruct n as [|p|p]; try lia.
  change (decimal (Z.pos p)) with (pretty_N (N.pos p)). unfold pretty_N.
  destruct (decide (N.pos p = 0)%N) as [E|_]; [discriminate E|].
  unfold parseInt. cbn [ToString].
  change ("-" ++ pretty_N_go (N.pos p) "")%string
    with (String.String "-" (pretty_N_go (N.pos p) "")).
  change (trim_start (String.String "-" (pretty_N_go (N.pos p) "")))
    with (String.String "-" (pretty_N_go (N.pos p) "")).
  cbn [strip_sign].
  destruct (pretty_leading_digit (N.pos p) "" ltac:(lia)) as (d & r & E & Hd).
  assert (T : strip_radix (pretty_N_go (N.pos p) "") = (10, pretty_N_go (N.pos p) "")).
  { rewrite E.
    assert (d = 1 \/ d = 2 \/ d = 3 \/ d = 4 \/ d = 5 \/ d = 6 \/ d = 7
            \/ d = 8 \/ d = 9)%N as C by lia.
    repeat (destruct C as [->|C]; [reflexivity|]).
    subst d. reflexivity. }
  rewrite T.
  rewrite read_digits_pretty by lia. cbn [read_digits].
  reflexivity.
Qed.

Section MoreGuarantees.

Variable clock : nat -> Z.
Variable pg_accepts : nat -> Stmt -> bool.
Variable pg_database_size : Database -> Z.
Variable JSON_parse : string -> option value.
Variable rev : Revision.

Lemma delete_by_size_sends_retention :
  sends_only is_retention (delete_by_size clock pg_accepts pg_database_size).
Proof. unfold delete_by_size. sends. Qed.


(** X9. The clean-up never throws and only deletes history rows: the
    rows left are a sublist of the rows before, and the vessels table
    and the id sequence are as before, whatever PostgreSQL answers. *)
Theorem cleanupOldData_only_deletes_history w :
  let result := cleanupOldData clock pg_accepts pg_database_size w in
  fst result = Return tt
  /\ vessels (db (snd result)) = vessels (db w)
  /\ ais_positions_id_seq (db (snd result)) = ais_positions_id_seq (db w)
  /\ ais_positions (db (snd result)) `sublist_of` ais_positions (db w).
Proof.
  intros result. subst result. split.
  - unfold cleanupOldData, try_catch.
    match goal with |- context [match ?b w with _ => _ end] => destruct (b w) as [[[]|e] w'] end;
      reflexivity.
  - apply (cleanupOldData_sends_retention clock pg_accepts pg_database_size pruned).
    + apply pruned_refl.
    + apply pruned_trans.
    + intros now size s d r d'. apply exec_retention_pruned.
Qed.

(** X10. When PostgreSQL accepts the first DELETE of the clean-up, no
    history row older than 48 hours at the time of that statement is
    left when the clean-up ends, whatever happens in the size check. *)
Theorem cleanupOldData_leaves_no_old_row w r :
  pg_accepts (tx w) delete_older_than_48_hours = true ->
  r ∈ ais_positions (db (snd (cleanupOldData clock pg_accepts pg_database_size w))) ->
  clock (tx w) - hours 48 <= Position.created_at r.
Proof.
  intros Ha. unfold cleanupOldData, delete_by_age, try_catch, bindM, console_log.
  unfold pool_query. cbn [tx db]. rewrite Ha. cbn [exec].
  match goal with
  | |- context [delete_by_size clock pg_accepts pg_database_size ?w2] =>
      pose proof (delete_by_size_sends_retention pruned pruned_refl pruned_trans
                    exec_retention_pruned w2) as (_ & _ & Hsub);
      destruct (delete_by_size clock pg_accepts pg_database_size w2) as [[[]|e] w3]
  end; cbn [snd db ais_positions console_error] in *; intros Hr;
    apply (fun H => elem_of_sublist _ _ _ H Hsub) in Hr;
    apply list_elem_of_filter in Hr as [Hr _]; lia.
Qed.

(** X11. When PostgreSQL rejects the first DELETE of the clean-up, the
    size check is not attempted: one statement was sent, the tables are
    as before, and the error is logged after the opening line. *)
Theorem cleanupOldData_age_step_rejected w :
  pg_accepts (tx w) delete_older_than_48_hours = false ->
  cleanupOldData clock pg_accepts pg_database_size w =
    (Return tt,
     {| db := db w; tx := S (tx w);
        console := console w ++ [log "Running data cleanup..." [];
                                 error "Cleanup error:" DatabaseError] |}).
Proof.
  intros Ha. unfold cleanupOldData, delete_by_age, try_catch, bindM, console_log.
  unfold pool_query. cbn [tx db]. rewrite Ha. unfold console_error.
  cbn [db tx console]. rewrite <- app_assoc. reflexivity.
Qed.

End MoreGuarantees.

(** X12. Whatever the request, the history route sends one of two
    constant statement texts with as many parameters as placeholders:
    the mmsi of the request, when it has one, and the limit are bound as
    parameters and never enter the text. *)
Theorem api_positions_query_is_parameterized props :
  exists limit,
    api_positions_query (Obj props) =
      Return
        (if ToBoolean (field (Obj props) "mmsi")
         then ("SELECT * FROM ais_positions WHERE mmsi = $1 ORDER BY timestamp DESC LIMIT $2",
               [field (Obj props) "mmsi"; limit])
         else ("SELECT * FROM ais_positions ORDER BY timestamp DESC LIMIT $1",
               [limit])).
Proof.
  unfold api_positions_query. js_unfold. cbn [get]. cbn beta iota.
  set (given := own "limit" props).
  set (limit := if ToBoolean (Num (parseInt given)) then Num (parseInt given) else int 500).
  assert (E : (if ToBoolean (Num (parseInt given)) then Return (Num (parseInt given))
               else Return (int 500)) = Return limit).
  { subst limit. destruct (ToBoolean (Num (parseInt given))); reflexivity. }
  rewrite E. cbn beta iota. exists limit. cbn [field].
  destruct (ToBoolean (own "mmsi" props)); reflexivity.
Qed.


(** ** Start-up *)

Lemma after_attempts_refl delay p : after_attempts delay 0 0 p p.
Proof.
  repeat split; try reflexivity.
  - lia.
  - cbn [replicate]. rewrite app_nil_r. reflexivity.
  - exists []. rewrite app_nil_r. reflexivity.
Qed.

Lemma after_attempts_trans delay n1 s1 n2 s2 p1 p2 p3 :
  after_attempts delay n1 s1 p1 p2 ->
  after_attempts delay n2 s2 p2 p3 ->
  after_attempts delay (n1 + n2) (s1 + s2) p1 p3.
Proof.
  intros (E1 & T1 & N1 & S1 & K1 & M1 & l1 & O1) (E2 & T2 & N2 & S2 & K2 & M2 & l2 & O2).
  repeat split; try congruence.
  - lia.
  - rewrite S2, S1, replicate_add, app_assoc. reflexivity.
  - exists (l1 ++ l2). rewrite O2, O1, app_assoc. reflexivity.
Qed.

Ltac stepP :=
  cbv beta iota delta [bindP try_catchP print pool_query_startup retP sleep throw
                         process_exit getenv new_WebSocket connectAIS];
  cbn [env tables statements output sleeps sockets timeouts fst snd].

Section StartupProperties.

Variable clock : nat -> Z.
Variable pg_accepts : nat -> Stmt -> bool.
Variable pg_database_size : Database -> Z.
Variable pg_answers : nat -> Query -> bool.
Variable pg_message : nat -> string.
Variable exn_message : exn -> string.

Local Abbreviation loop := (connect_loop pg_answers pg_message exn_message).

(** Every run of the loop: it returns at the first attempt that is
    answered, or throws when all the rounds left have failed. *)
Lemma connect_loop_cases fuel i maxRetries delay p :
  fuel = Z.to_nat (maxRetries - i) ->
  let result := loop fuel i maxRetries delay p in
  (fst result = Done tt
   /\ exists k, (k < fuel)%nat
        /\ (forall j, (j < k)%nat -> pg_answers (statements p + j)%nat select_now = false)
        /\ pg_answers (statements p + k)%nat select_now = true
        /\ after_attempts delay (S k) k p (snd result))
  \/ (fst result = Raise (Error ("Failed to connect after " ++ decimal maxRetries
                                 ++ " attempts")%string)
      /\ (0 < fuel)%nat
      /\ (forall j, (j < fuel)%nat -> pg_answers (statements p + j)%nat select_now = false)
      /\ after_attempts delay fuel (fuel - 1) p (snd result))
  \/ (fuel = 0%nat /\ result = (Done tt, p)).
Proof.
  revert i p. induction fuel as [|fuel IH]; intros i p Hf result; subst result.
  - right; right. split; reflexivity.
  - assert (Hi : (i <? maxRetries) = true) by (apply Z.ltb_lt; lia).
    cbn [connect_loop]. rewrite Hi.
    cbv beta iota delta [bindP try_catchP print pool_query_startup retP sleep throw].
    cbn [env tables statements output sleeps sockets timeouts].
    destruct (pg_answers (statements p) select_now) eqn:Ha; cbv beta iota.
    + left. cbn [fst snd]. split; [reflexivity|].
      exists 0%nat. split; [lia|]. split; [intros j Hj; lia|].
      rewrite Nat.add_0_r. split; [exact Ha|].
      repeat split; cbn; try reflexivity; try lia.
      * rewrite app_nil_r. reflexivity.
      * eexists. rewrite <- app_assoc. reflexivity.
    + destruct (i <? maxRetries - 1) eqn:Hl; cbv beta iota;
        cbn [env tables statements output sleeps sockets timeouts].
      * apply Z.ltb_lt in Hl.
        match goal with
        | |- context [loop fuel (i + 1) maxRetries delay ?q] =>
            set (p2 := q);
            assert (H2 : after_attempts delay 1 1 p p2)
        end.
        { subst p2. repeat split; cbn; try reflexivity; try lia.
          eexists. rewrite <- !app_assoc. reflexivity. }
        assert (N2 : statements p2 = S (statements p)) by reflexivity.
        destruct (IH (i + 1) p2 ltac:(lia))
          as [(R & k & Hk & Hno & Hyes & Haft)|[(R & Hpos & Hno & Haft)|(F0 & _)]].
        -- left. split; [exact R|]. exists (S k). split; [lia|]. split; [|split].
           ++ intros j Hj. destruct j as [|j].
              ** rewrite Nat.add_0_r. exact Ha.
              ** replace (statements p + S j)%nat with (statements p2 + j)%nat
                   by (rewrite N2; lia).
                 apply Hno. lia.
           ++ replace (statements p + S k)%nat with (statements p2 + k)%nat
                by (rewrite N2; lia).
              exact Hyes.
           ++ exact (after_attempts_trans delay 1 1 (S k) k p p2 _ H2 Haft).
        -- right; left. split; [exact R|]. split; [lia|]. split.
           ++ intros j Hj. destruct j as [|j].
              ** rewrite Nat.add_0_r. exact Ha.
              ** replace (statements p + S j)%nat with (statements p2 + j)%nat
                   by (rewrite N2; lia).
                 apply Hno. lia.
           ++ replace (S fuel - 1)%nat with (1 + (fuel - 1))%nat by lia.
              exact (after_attempts_trans delay 1 1 fuel (fuel - 1) p p2 _ H2 Haft).
        -- lia.
      * apply Z.ltb_ge in Hl. assert (fuel = 0%nat) by lia. subst fuel.
        right; left. cbn [fst snd]. split; [reflexivity|]. split; [lia|]. split.
        -- intros j Hj. assert (j = 0%nat) by lia. subst j.
           rewrite Nat.add_0_r. exact Ha.
        -- repeat split; cbn; try reflexivity; try lia.
           ++ rewrite app_nil_r. reflexivity.
           ++ eexists. rewrite <- app_assoc. reflexivity.
Qed.

(** X14. connectWithRetry returns at the first attempt that PostgreSQL
    answers: when the first k attempts fail and attempt k + 1 is
    answered, with k below maxRetries, it returns after k + 1 statements
    and k waits of [delay] ms, and touches neither tables nor sockets. *)
Theorem connectWithRetry_returns_at_first_answer maxRetries delay k p :
  Z.of_nat k < maxRetries ->
  (forall j, (j < k)%nat -> pg_answers (statements p + j)%nat select_now = false) ->
  pg_answers (statements p + k)%nat select_now = true ->
  let result := connectWithRetry pg_answers pg_message exn_message maxRetries delay p in
  fst result = Done tt
  /\ statements (snd result) = (statements p + k + 1)%nat
  /\ sleeps (snd result) = sleeps p ++ replicate k delay
  /\ tables (snd result) = tables p
  /\ sockets (snd result) = sockets p.
Proof.
  intros Hk Hno Hyes result. subst result. unfold connectWithRetry.
  destruct (connect_loop_cases (Z.to_nat maxRetries) 0 maxRetries delay p
              ltac:(f_equal; lia))
    as [(R & k' & Hk' & Hno' & Hyes' & Haft)|[(R & Hpos & Hno' & Haft)|(F0 & _)]].
  - assert (k' = k).
    { destruct (Nat.lt_trichotomy k' k) as [L|[E|L]]; [|exact E|].
      - rewrite (Hno k' L) in Hyes'. discriminate Hyes'.
      - rewrite (Hno' k L) in Hyes. discriminate Hyes. }
    subst k'. destruct Haft as (_ & T & N & S & K & _).
    split; [exact R|]. split; [rewrite N; lia|]. auto.
  - rewrite (Hno' k ltac:(lia)) in Hyes. discriminate Hyes.
  - lia.
Qed.

(** X15. connectWithRetry gives up after maxRetries failed attempts:
    it throws a new Error that carries the number of attempts, not the
    error of PostgreSQL, after maxRetries statements and maxRetries - 1
    waits of [delay] ms. *)
Theorem connectWithRetry_gives_up maxRetries delay p :
  0 < maxRetries ->
  (forall j, Z.of_nat j < maxRetries ->
             pg_answers (statements p + j)%nat select_now = false) ->
  let result := connectWithRetry pg_answers pg_message exn_message maxRetries delay p in
  fst result = Raise (Error ("Failed to connect after " ++ decimal maxRetries
                             ++ " attempts")%string)
  /\ Z.of_nat (statements (snd result)) = Z.of_nat (statements p) + maxRetries
  /\ sleeps (snd result) = sleeps p ++ replicate (Z.to_nat (maxRetries - 1)) delay
  /\ tables (snd result) = tables p
  /\ sockets (snd result) = sockets p.
Proof.
  intros Hm Hno result. subst result. unfold connectWithRetry.
  destruct (connect_loop_cases (Z.to_nat maxRetries) 0 maxRetries delay p
              ltac:(f_equal; lia))
    as [(R & k' & Hk' & Hno' & Hyes' & Haft)|[(R & Hpos & Hno' & Haft)|(F0 & _)]].
  - rewrite (Hno k' ltac:(lia)) in Hyes'. discriminate Hyes'.
  - destruct Haft as (_ & T & N & S & K & _).
    split; [exact R|]. split; [rewrite N; lia|]. split; [|auto].
    rewrite S. do 2 f_equal. lia.
  - lia.
Qed.

(** X16. connectWithRetry returns only after PostgreSQL has answered
    the last statement it sent, when maxRetries is positive; with
    maxRetries zero or negative it returns at once, without testing
    the connection. *)
Theorem connectWithRetry_returns_only_when_connected maxRetries delay p :
  let result := connectWithRetry pg_answers pg_message exn_message maxRetries delay p in
  (0 < maxRetries ->
   fst result = Done tt ->
   exists n, statements (snd result) = S n
             /\ (statements p <= n)%nat
             /\ pg_answers n select_now = true)
  /\ (maxRetries <= 0 -> result = (Done tt, p)).
Proof.
  intros result. subst result. unfold connectWithRetry. split.
  - intros Hm Hd.
    destruct (connect_loop_cases (Z.to_nat maxRetries) 0 maxRetries delay p
                ltac:(f_equal; lia))
      as [(R & k' & Hk' & Hno' & Hyes' & Haft)|[(R & Hpos & Hno' & Haft)|(F0 & _)]].
    + destruct Haft as (_ & _ & N & _). exists (statements p + k')%nat.
      split; [rewrite N; lia|]. split; [lia | exact Hyes'].
    + rewrite R in Hd. discriminate Hd.
    + lia.
  - intros Hm. replace (Z.to_nat maxRetries) with 0%nat by lia. reflexivity.
Qed.

End StartupProperties.

Lemma cleanupOldData_returns clock pg_accepts pg_database_size w :
  fst (cleanupOldData clock pg_accepts pg_database_size w) = Return tt.
Proof.
  unfold cleanupOldData, try_catch.
  match goal with
  | |- context [match ?b w with _ => _ end] => destruct (b w) as [[[]|e] w']
  end; reflexivity.
Qed.

Section Listen.

Variable clock : nat -> Z.
Variable pg_accepts : nat -> Stmt -> bool.
Variable pg_database_size : Database -> Z.
Variable pg_answers : nat -> Query -> bool.
Variable pg_message : nat -> string.
Variable exn_message : exn -> string.

Local Abbreviation init := (initDatabase pg_answers pg_message exn_message).
Local Abbreviation listen :=
  (app_listen clock pg_accepts pg_database_size pg_answers pg_message exn_message).

(** The clean-up, run in the process, returns and leaves environment,
    sleeps, sockets and timeouts as they are. *)
Lemma run_cleanupOldData p :
  let result := run (cleanupOldData clock pg_accepts pg_database_size) p in
  fst result = Done tt
  /\ env (snd result) = env p
  /\ sleeps (snd result) = sleeps p
  /\ sockets (snd result) = sockets p
  /\ timeouts (snd result) = timeouts p.
Proof.
  intros result. subst result. unfold run.
  pose proof (cleanupOldData_returns clock pg_accepts pg_database_size
                {| db := tables p; tx := statements p; console := [] |}) as R.
  destruct (cleanupOldData clock pg_accepts pg_database_size
              {| db := tables p; tx := statements p; console := [] |}) as [c w].
  cbn [fst] in R. subst c. repeat split; reflexivity.
Qed.

(** Every run of initDatabase: it returns after the CREATE statement
    was answered, or it logs the error it caught and throws it again. *)
Lemma initDatabase_cases rev p :
  let result := init rev p in
  exists n slept,
    after_attempts 3000 n slept p (snd result)
    /\ (fst result = Done tt
        /\ (2 <= n)%nat
        /\ pg_answers (statements p + n - 1)%nat create_tables = true
        /\ last (output (snd result)) = Some (stdout "Database tables initialized" [])
        \/ exists f,
             fst result = Raise f
             /\ last (output (snd result))
                = Some (stderr "Database initialization error:" [failure f])).
Proof.
  intros result. subst result. unfold initDatabase. destruct rev.
  - (* src/index.js *)
    stepP. destruct (pg_answers (statements p) select_now) eqn:H1; cbv beta iota;
      cbn [env tables statements output sleeps sockets timeouts fst snd].
    + destruct (pg_answers (S (statements p)) create_tables) eqn:H2; cbv beta iota;
        cbn [env tables statements output sleeps sockets timeouts fst snd].
      * exists 2%nat, 0%nat. split.
        -- repeat split; cbn; try reflexivity; try lia.
           ++ rewrite app_nil_r. reflexivity.
           ++ eexists. rewrite <- !app_assoc. reflexivity.
        -- left. split; [reflexivity|]. split; [lia|]. split.
           ++ replace (statements p + 2 - 1)%nat with (S (statements p)) by lia. exact H2.
           ++ apply last_snoc.
      * exists 2%nat, 0%nat. split.
        -- repeat split; cbn; try reflexivity; try lia.
           ++ rewrite app_nil_r. reflexivity.
           ++ eexists. rewrite <- !app_assoc. reflexivity.
        -- right. eexists. split; [reflexivity | apply last_snoc].
    + exists 1%nat, 0%nat. split.
      * repeat split; cbn; try reflexivity; try lia.
        -- rewrite app_nil_r. reflexivity.
        -- eexists. rewrite <- !app_assoc. reflexivity.
      * right. eexists. split; [reflexivity | apply last_snoc].
  - (* src/unnamed/part_001 *)
    unfold connectWithRetry. cbv beta iota delta [bindP try_catchP].
    destruct (connect_loop_cases pg_answers pg_message exn_message
                (Z.to_nat 5) 0 5 3000 p eq_refl)
      as [(R & k & Hk & Hno & Hyes & Haft)|[(R & Hpos & Hno & Haft)|(F0 & _)]];
      [| |discriminate F0].
    + destruct (connect_loop pg_answers pg_message exn_message (Z.to_nat 5) 0 5 3000 p)
        as [r p1]. cbn [fst snd] in R, Haft. subst r. stepP.
      assert (N1 : statements p1 = (statements p + S k)%nat) by apply Haft.
      destruct (pg_answers (statements p1) create_tables) eqn:H2; cbv beta iota;
        cbn [env tables statements output sleeps sockets timeouts fst snd].
      * exists (S k + 1)%nat, (k + 0)%nat. split.
        -- eapply after_attempts_trans; [exact Haft|].
           repeat split; cbn; try reflexivity; try lia.
           ++ rewrite app_nil_r. reflexivity.
           ++ eexists. reflexivity.
        -- left. split; [reflexivity|]. split; [lia|]. split.
           ++ replace (statements p + (S k + 1) - 1)%nat with (statements p1)
                by (rewrite N1; lia).
              exact H2.
           ++ apply last_snoc.
      * exists (S k + 1)%nat, (k + 0)%nat. split.
        -- eapply after_attempts_trans; [exact Haft|].
           repeat split; cbn; try reflexivity; try lia.
           ++ rewrite app_nil_r. reflexivity.
           ++ eexists. reflexivity.
        -- right. eexists. split; [reflexivity | apply last_snoc].
    + destruct (connect_loop pg_answers pg_message exn_message (Z.to_nat 5) 0 5 3000 p)
        as [r p1]. cbn [fst snd] in R, Haft. subst r. stepP.
      exists (Z.to_nat 5 + 0)%nat, (Z.to_nat 5 - 1 + 0)%nat. split.
      * eapply after_attempts_trans; [exact Haft|].
        repeat split; cbn; try reflexivity; try lia.
        -- rewrite app_nil_r. reflexivity.
        -- eexists. reflexivity.
      * right. eexists. split; [reflexivity | apply last_snoc].
Qed.

(** X17. initDatabase never swallows an error: it returns only after
    the CREATE statement was answered, and otherwise logs the error it
    caught and throws that same error; it touches neither tables nor
    sockets. *)
Theorem initDatabase_logs_and_rethrows rev p :
  let result := initDatabase pg_answers pg_message exn_message rev p in
  (fst result = Done tt
   /\ (exists n, statements (snd result) = S n /\ pg_answers n create_tables = true)
   \/ exists f,
        fst result = Raise f
        /\ last (output (snd result))
           = Some (stderr "Database initialization error:" [failure f]))
  /\ tables (snd result) = tables p
  /\ sockets (snd result) = sockets p.
Proof.
  intros result. subst result.
  destruct (initDatabase_cases rev p) as (n & slept & Haft & C).
  destruct Haft as (_ & T & N & _ & K & _). split; [|auto].
  destruct C as [(R & Hn & Hc & _)|(f & R & L)].
  - left. split; [exact R|]. exists (statements p + n - 1)%nat.
    split; [rewrite N; lia | exact Hc].
  - right. exists f. auto.
Qed.

(** X18. Without DATABASE_URL or without AISSTREAM_API_KEY (unset or
    empty) the start-up ends the process with exit code 1 before any
    statement is sent and before any socket is made. *)
Theorem app_listen_missing_variable rev p :
  ToBoolean (DATABASE_URL (env p)) = false
  \/ ToBoolean (AISSTREAM_API_KEY (env p)) = false ->
  let result :=
    app_listen clock pg_accepts pg_database_size pg_answers pg_message exn_message
      rev p in
  fst result = Exit 1
  /\ statements (snd result) = statements p
  /\ sockets (snd result) = sockets p
  /\ tables (snd result) = tables p.
Proof.
  intros H result. subst result. unfold app_listen.
  destruct rev; stepP;
    (destruct (ToBoolean (DATABASE_URL (env p))) eqn:D; cbn [negb]; cbv beta iota;
     cbn [env tables statements output sleeps sockets timeouts fst snd];
     [|repeat split; reflexivity]);
    (destruct (ToBoolean (AISSTREAM_API_KEY (env p))) eqn:K; cbn [negb]; cbv beta iota;
     cbn [env tables statements output sleeps sockets timeouts fst snd];
     [|repeat split; reflexivity]);
    destruct H; discriminate.
Qed.

(** Every run of the start-up. *)
Lemma app_listen_cases rev p :
  let result := listen rev p in
  env (snd result) = env p
  /\ timeouts (snd result) = timeouts p
  /\ (fst result = Exit 1 /\ sockets (snd result) = sockets p
      \/ fst result = Done tt
         /\ sockets (snd result)
            = sockets p ++ [{| url := "wss://stream.aisstream.io/v0/stream";
                               readyState := CONNECTING; frames := [] |}]).
Proof.
  intros result. subst result. unfold app_listen.
  destruct rev; stepP;
    (destruct (ToBoolean (DATABASE_URL (env p))) eqn:D; cbn [negb]; cbv beta iota;
     cbn [env tables statements output sleeps sockets timeouts fst snd];
     [|split; [reflexivity|]; split; [reflexivity|]; left; split; reflexivity]);
    (destruct (ToBoolean (AISSTREAM_API_KEY (env p))) eqn:K; cbn [negb]; cbv beta iota;
     cbn [env tables statements output sleeps sockets timeouts fst snd];
     [|split; [reflexivity|]; split; [reflexivity|]; left; split; reflexivity]);
    match goal with
    | |- context [init ?r ?q] =>
        destruct (initDatabase_cases r q) as (n & slept & Haft & C);
        destruct Haft as (He & _ & _ & _ & Hs & Ht & _);
        destruct (init r q) as [o p2];
        cbn [fst snd env sockets timeouts] in C, He, Hs, Ht;
        destruct C as [(R & _)|(f & R & _)]; subst o; cbv beta iota;
        cbn [env tables statements output sleeps sockets timeouts fst snd]
    end.
  - rewrite He, Ht, Hs. split; [reflexivity|]. split; [reflexivity|].
    right. split; reflexivity.
  - rewrite He, Ht, Hs. split; [reflexivity|]. split; [reflexivity|].
    left. split; reflexivity.
  - match goal with
    | |- context [run ?m ?q] =>
        destruct (run_cleanupOldData q) as (R & He' & _ & Hk & Ht');
        destruct (run m q) as [o p3];
        cbn [fst snd env sockets timeouts] in R, He', Hk, Ht'; subst o
    end.
    cbv beta iota. cbn [fst snd]. rewrite He', Ht', Hk, He, Ht, Hs.
    split; [reflexivity|]. split; [reflexivity|]. right. split; reflexivity.
  - rewrite He, Ht, Hs. split; [reflexivity|]. split; [reflexivity|].
    left. split; reflexivity.
Qed.

(** X19. The start-up never throws: it either ends the process with
    exit code 1 without having made a socket, or returns with exactly
    one new socket, which is connecting to AISStream. *)
Theorem app_listen_opens_one_socket_or_exits rev p :
  let result :=
    app_listen clock pg_accepts pg_database_size pg_answers pg_message exn_message
      rev p in
  fst result = Exit 1 /\ sockets (snd result) = sockets p
  \/ fst result = Done tt
     /\ sockets (snd result)
        = sockets p ++ [{| url := "wss://stream.aisstream.io/v0/stream";
                           readyState := CONNECTING; frames := [] |}].
Proof. intros result. exact (proj2 (proj2 (app_listen_cases rev p))). Qed.

(** X20. When PostgreSQL is down, the revision of src/unnamed/part_001
    ends the process with exit code 1 after five statements and four
    waits of 3000 ms, and the revision of src/index.js after its first
    statement, without waiting; neither makes a socket. *)
Theorem app_listen_database_down p :
  ToBoolean (DATABASE_URL (env p)) = true ->
  ToBoolean (AISSTREAM_API_KEY (env p)) = true ->
  (forall j, (j < 5)%nat -> pg_answers (statements p + j)%nat select_now = false) ->
  let retrying :=
    app_listen clock pg_accepts pg_database_size pg_answers pg_message exn_message
      part_001 p in
  let direct :=
    app_listen clock pg_accepts pg_database_size pg_answers pg_message exn_message
      index_js p in
  (fst retrying = Exit 1
   /\ statements (snd retrying) = (statements p + 5)%nat
   /\ sleeps (snd retrying) = sleeps p ++ [3000; 3000; 3000; 3000]
   /\ sockets (snd retrying) = sockets p)
  /\ (fst direct = Exit 1
      /\ statements (snd direct) = (statements p + 1)%nat
      /\ sleeps (snd direct) = sleeps p
      /\ sockets (snd direct) = sockets p).
Proof.
  intros D K Hno retrying direct. subst retrying direct. split.
  - unfold app_listen, initDatabase, connectWithRetry. stepP.
    rewrite D. cbn [negb]. cbv beta iota.
    cbn [env tables statements output sleeps sockets timeouts fst snd].
    rewrite K. cbn [negb]. cbv beta iota.
    cbn [env tables statements output sleeps sockets timeouts fst snd].
    match goal with
    | |- context [connect_loop _ _ _ ?fuel 0 5 3000 ?q] =>
        destruct (connect_loop_cases pg_answers pg_message exn_message
                    fuel 0 5 3000 q eq_refl)
          as [(R & k & Hk & _ & Hyes & _)|[(R & _ & _ & Haft)|(F0 & _)]];
        [cbn [statements] in Hyes; rewrite Hno in Hyes by exact Hk; discriminate Hyes
        | |discriminate F0];
        destruct (connect_loop pg_answers pg_message exn_message fuel 0 5 3000 q)
          as [o p2]
    end.
    cbn [fst snd] in R, Haft. subst o. cbv beta iota.
    cbn [env tables statements output sleeps sockets timeouts fst snd].
    destruct Haft as (_ & _ & N & S & Hs & _).
    cbn [env tables statements output sleeps sockets timeouts] in N, S, Hs.
    split; [reflexivity|]. split; [rewrite N; reflexivity|]. split; [exact S | exact Hs].
  - unfold app_listen, initDatabase. stepP.
    rewrite D. cbn [negb]. cbv beta iota.
    cbn [env tables statements output sleeps sockets timeouts fst snd].
    rewrite K. cbn [negb]. cbv beta iota.
    cbn [env tables statements output sleeps sockets timeouts fst snd].
    pose proof (Hno 0%nat ltac:(lia)) as H0. rewrite Nat.add_0_r in H0. rewrite H0.
    cbv beta iota. cbn [env tables statements output sleeps sockets timeouts fst snd].
    repeat split; try reflexivity. lia.
Qed.

End Listen.

(** ** The socket: one connection at a time *)

Lemma last_socket l (i : nat) (s : WebSocket) :
  l !! i = Some s -> S i = length l -> last l = Some s.
Proof.
  intros H L. rewrite last_lookup. replace (Init.Nat.pred (length l)) with i by lia.
  exact H.
Qed.

Lemma in_state_lookup i accepted p :
  in_state i accepted p = true ->
  exists s, sockets p !! i = Some s /\ accepted (readyState s) = true.
Proof.
  unfold in_state. destruct (sockets p !! i) as [s|]; [|discriminate].
  intros H. exists s. auto.
Qed.

Section SocketProperties.

Variable clock : nat -> Z.
Variable pg_accepts : nat -> Stmt -> bool.
Variable pg_database_size : Database -> Z.
Variable JSON_parse : string -> option value.
Variable JSON_stringify : value -> string.
Variable rev : Revision.

Local Abbreviation reaction :=
  (react clock pg_accepts pg_database_size JSON_parse JSON_stringify rev).

Lemma react_opens i p s :
  sockets p !! i = Some s ->
  S i = length (sockets p) ->
  exists lines,
    reaction (opens i) p =
      (Done tt,
       {| env := env p; tables := tables p; statements := statements p;
          output := output p ++ lines; sleeps := sleeps p;
          sockets :=
            <[i := {| url := url s; readyState := OPEN;
                      frames := frames s
                                ++ [JSON_stringify (subscription rev (env p))] |}]>
              (sockets p);
          timeouts := timeouts p |}).
Proof.
  intros H L. eexists. unfold react, on_open.
  cbv beta iota delta [bindP print getenv set_readyState ws_send retP].
  cbn [env tables statements output sleeps sockets timeouts].
  rewrite last_lookup, length_alter.
  replace (Init.Nat.pred (length (sockets p))) with i by lia.
  rewrite list_lookup_alter_eq, H. cbn [fmap option_fmap option_map readyState].
  replace (length (sockets p) - 1)%nat with i by lia.
  do 2 f_equal.
  apply list_eq. intros j. destruct (decide (i = j)) as [<-|Hne].
  - rewrite !list_lookup_alter_eq, H, list_lookup_insert_eq by (apply lookup_lt_Some in H; lia).
    reflexivity.
  - rewrite !list_lookup_alter_ne, list_lookup_insert_ne by assumption. reflexivity.
Qed.

Lemma run_onMessage data p :
  exists p',
    on_message clock pg_accepts pg_database_size JSON_parse rev data p = (Done tt, p')
    /\ env p' = env p
    /\ sleeps p' = sleeps p
    /\ sockets p' = sockets p
    /\ timeouts p' = timeouts p.
Proof.
  unfold on_message, run.
  pose proof (onMessage_returns clock pg_accepts pg_database_size JSON_parse rev data
                {| db := tables p; tx := statements p; console := [] |}) as R.
  destruct (onMessage clock pg_accepts pg_database_size JSON_parse rev data
              {| db := tables p; tx := statements p; console := [] |}) as [c w].
  cbn [fst] in R. subst c. eexists. repeat split; reflexivity.
Qed.

(** One event, in a state with a single connection: the handler
    returns, the state has a single connection again, and the only
    frame sent is the subscription, on the socket that opened. *)
Lemma react_step e p :
  single_connection p ->
  enabled e p = true ->
  exists p',
    reaction e p = (Done tt, p')
    /\ single_connection p'
    /\ env p' = env p
    /\ (subscribed (JSON_stringify (subscription rev (env p))) p ->
        subscribed (JSON_stringify (subscription rev (env p))) p')
    /\ forall j s, sockets p !! j = Some s ->
         exists s',
           sockets p' !! j = Some s'
           /\ frames_grow
                match e with
                | opens i =>
                    if decide (i = j)
                    then [JSON_stringify (subscription rev (env p))] else []
                | _ => []
                end s s'.
Proof.
  intros [I1 I2] En. destruct e as [i|i data|i reason|i|]; cbn [enabled] in En.
  - (* open *)
    apply in_state_lookup in En as (s & H & C).
    assert (Lv : live s = true) by (unfold live; destruct (readyState s); auto; discriminate).
    pose proof (I1 i s H Lv) as L.
    destruct (react_opens i p s H L) as (lines & ->). eexists. split; [reflexivity|].
    assert (Hi : (i < length (sockets p))%nat) by lia.
    split; [|split; [reflexivity|split]].
    + split; cbn [sockets timeouts].
      * intros j s' Hj Lj. rewrite length_insert.
        destruct (decide (i = j)) as [<-|Hne]; [exact L|].
        rewrite list_lookup_insert_ne in Hj by assumption. exact (I1 j s' Hj Lj).
      * destruct I2 as [(T & _)|(_ & Hn)].
        -- left. split; [exact T|]. eexists. split;
             [apply last_socket with i;
              [apply list_lookup_insert_eq; exact Hi | rewrite length_insert; exact L]
             |reflexivity].
        -- rewrite (Hn s (last_socket _ _ _ H L)) in Lv. discriminate Lv.
    + unfold subscribed. cbn [sockets]. intros F. apply Forall_insert; [exact F|].
      cbn [readyState frames]. rewrite Forall_lookup in F. specialize (F i s H).
      destruct (readyState s); try discriminate C. rewrite F. reflexivity.
    + intros j s' Hj. cbn [sockets]. destruct (decide (i = j)) as [<-|Hne].
      * rewrite list_lookup_insert_eq by exact Hi. eexists. split; [reflexivity|].
        rewrite H in Hj. injection Hj as <-. reflexivity.
      * rewrite list_lookup_insert_ne by assumption. exists s'. split; [exact Hj|].
        unfold frames_grow. rewrite app_nil_r. reflexivity.
  - (* message *)
    destruct (run_onMessage data p) as (p' & R & E & _ & K & T).
    exists p'. split; [exact R|]. split; [|split; [exact E|split]].
    + unfold single_connection. rewrite K, T. split; assumption.
    + unfold subscribed. rewrite K. auto.
    + intros j s Hj. rewrite K. exists s. split; [exact Hj|].
      unfold frames_grow. rewrite app_nil_r. reflexivity.
  - (* error *)
    apply in_state_lookup in En as (s & H & C).
    assert (Lv : live s = true) by exact C.
    pose proof (I1 i s H Lv) as L.
    assert (Hi : (i < length (sockets p))%nat) by lia.
    eexists. split; [reflexivity|].
    cbn [env tables statements output sleeps sockets timeouts].
    split; [|split; [reflexivity|split]].
    + split; cbn [sockets timeouts].
      * intros j s' Hj Lj. rewrite length_alter.
        destruct (decide (i = j)) as [<-|Hne]; [exact L|].
        rewrite list_lookup_alter_ne in Hj by assumption. exact (I1 j s' Hj Lj).
      * destruct I2 as [(T & _)|(_ & Hn)].
        -- left. split; [exact T|]. eexists. split;
             [apply last_socket with i;
              [rewrite list_lookup_alter_eq, H; reflexivity | rewrite length_alter; exact L]
             |reflexivity].
        -- rewrite (Hn s (last_socket _ _ _ H L)) in Lv. discriminate Lv.
    + unfold subscribed. cbn [sockets]. intros F. apply Forall_alter; [exact F|].
      intros x _ Hx. cbn [readyState frames].
      destruct (readyState x); auto.
    + intros j s' Hj. destruct (decide (i = j)) as [<-|Hne].
      * rewrite list_lookup_alter_eq, Hj. eexists. split; [reflexivity|].
        unfold frames_grow. cbn [frames]. rewrite app_nil_r. reflexivity.
      * rewrite list_lookup_alter_ne by assumption. exists s'. split; [exact Hj|].
        unfold frames_grow. rewrite app_nil_r. reflexivity.
  - (* close *)
    apply in_state_lookup in En as (s & H & C).
    assert (Lv : live s = true) by exact C.
    pose proof (I1 i s H Lv) as L.
    assert (Hi : (i < length (sockets p))%nat) by lia.
    eexists. split; [reflexivity|].
    cbn [env tables statements output sleeps sockets timeouts].
    split; [|split; [reflexivity|split]].
    + split; cbn [sockets timeouts].
      * intros j s' Hj Lj. rewrite length_alter.
        destruct (decide (i = j)) as [<-|Hne]; [exact L|].
        rewrite list_lookup_alter_ne in Hj by assumption. exact (I1 j s' Hj Lj).
      * destruct I2 as [(T & _)|(_ & Hn)].
        -- right. rewrite T. split; [eexists; reflexivity|].
           intros s' Hl.
           rewrite (last_socket (alter _ i (sockets p)) i _
                      ltac:(rewrite list_lookup_alter_eq, H; reflexivity)
                      ltac:(rewrite length_alter; exact L)) in Hl.
           injection Hl as <-. reflexivity.
        -- rewrite (Hn s (last_socket _ _ _ H L)) in Lv. discriminate Lv.
    + unfold subscribed. cbn [sockets]. intros F. apply Forall_alter; [exact F|].
      intros x _ Hx. cbn [readyState frames].
      destruct (readyState x); auto.
    + intros j s' Hj. destruct (decide (i = j)) as [<-|Hne].
      * rewrite list_lookup_alter_eq, Hj. eexists. split; [reflexivity|].
        unfold frames_grow. cbn [frames]. rewrite app_nil_r. reflexivity.
      * rewrite list_lookup_alter_ne by assumption. exists s'. split; [exact Hj|].
        unfold frames_grow. rewrite app_nil_r. reflexivity.
  - (* timeout *)
    destruct I2 as [(T & _)|((ms & T) & Hn)]; [rewrite T in En; discriminate En|].
    eexists. split; [reflexivity|].
    cbn [env tables statements output sleeps sockets timeouts].
    assert (Dead : forall j s, sockets p !! j = Some s -> live s = false).
    { intros j s Hj. destruct (live s) eqn:Lv; [|reflexivity].
      rewrite <- (Hn s (last_socket _ _ _ Hj (I1 j s Hj Lv))). symmetry. exact Lv. }
    split; [|split; [reflexivity|split]].
    + split; cbn [sockets timeouts].
      * intros j s Hj Lj. rewrite length_app. cbn [length].
        apply lookup_app_Some in Hj as [Hj'|[Hge Hj']].
        -- rewrite (Dead j s Hj') in Lj. discriminate Lj.
        -- destruct (j - length (sockets p))%nat as [|n] eqn:D; [lia|].
           cbn in Hj'. discriminate Hj'.
      * left. rewrite T. split; [reflexivity|]. eexists.
        split; [apply last_snoc | reflexivity].
    + unfold subscribed. cbn [sockets]. intros F. apply Forall_app. split; [exact F|].
      constructor; [reflexivity | constructor].
    + intros j s Hj. exists s. split.
      * apply lookup_app_l_Some. exact Hj.
      * unfold frames_grow. rewrite app_nil_r. reflexivity.
Qed.

(** X21. The reconnection logic keeps a single connection: in a state
    where either the last socket is the only one not closed and no
    reconnection is pending, or all sockets are closed and one
    reconnection is pending, the handler of any event that the socket
    library or the timer can emit returns without throwing and leaves
    such a state. *)
Theorem react_keeps_single_connection e p :
  single_connection p ->
  enabled e p = true ->
  let result := react clock pg_accepts pg_database_size JSON_parse JSON_stringify rev e p in
  fst result = Done tt /\ single_connection (snd result).
Proof.
  intros I En result. subst result.
  destruct (react_step e p I En) as (p' & -> & I' & _). split; [reflexivity | exact I'].
Qed.

(** X22. The subscription is sent on the socket that opened, once, and
    no other event sends a frame: after any event every socket has the
    frames it had, followed by the subscription when it is the socket
    that has just opened. *)
Theorem subscription_goes_to_the_socket_that_opens e p j s :
  single_connection p ->
  enabled e p = true ->
  sockets p !! j = Some s ->
  let result := react clock pg_accepts pg_database_size JSON_parse JSON_stringify rev e p in
  exists s',
    sockets (snd result) !! j = Some s'
    /\ frames s' =
       frames s ++ match e with
                   | opens i =>
                       if decide (i = j)
                       then [JSON_stringify (subscription rev (env p))] else []
                   | _ => []
                   end.
Proof.
  intros I En Hj result. subst result.
  destruct (react_step e p I En) as (p' & -> & _ & _ & _ & F).
  destruct (F j s Hj) as (s' & H' & G). exists s'. split; [exact H' | exact G].
Qed.

(** X23. With a single connection, the health route reports connected
    exactly when some socket of the process is open; it answers with
    status 200 and changes nothing. *)
Theorem health_reports_the_connection p :
  single_connection p ->
  let result := health p in
  snd result = p
  /\ (exists connected,
        fst result = Done {| status := 200; body := health_body connected |}
        /\ (connected = true <->
            exists s, s ∈ sockets p /\ readyState s = OPEN)).
Proof.
  intros [I1 _] result. subst result. unfold health. cbn [fst snd].
  split; [reflexivity|]. eexists. split; [reflexivity|]. split.
  - destruct (last (sockets p)) as [ws|] eqn:L; [|discriminate].
    intros O. exists ws. split.
    + rewrite last_lookup in L. eapply list_elem_of_lookup_2. exact L.
    + destruct (readyState ws); try discriminate O. reflexivity.
  - intros (s & Hs & O). apply list_elem_of_lookup_1 in Hs as (i & Hi).
    assert (Lv : live s = true) by (unfold live; rewrite O; reflexivity).
    rewrite (last_socket _ _ _ Hi (I1 i s Hi Lv)), O. reflexivity.
Qed.

End SocketProperties.

Section Running.

Variable clock : nat -> Z.
Variable pg_accepts : nat -> Stmt -> bool.
Variable pg_database_size : Database -> Z.
Variable pg_answers : nat -> Query -> bool.
Variable pg_message : nat -> string.
Variable exn_message : exn -> string.
Variable JSON_parse : string -> option value.
Variable JSON_stringify : value -> string.
Variable rev : Revision.

Lemma play_invariant events p p' :
  single_connection p ->
  subscribed (JSON_stringify (subscription rev (env p))) p ->
  play clock pg_accepts pg_database_size JSON_parse JSON_stringify rev events p = Some p' ->
  env p' = env p
  /\ single_connection p'
  /\ subscribed (JSON_stringify (subscription rev (env p))) p'.
Proof.
  revert p. induction events as [|e events IH]; intros p I S; cbn [play].
  - intros [= <-]. auto.
  - destruct (enabled e p) eqn:En; [|discriminate].
    destruct (react_step clock pg_accepts pg_database_size JSON_parse JSON_stringify rev
                e p I En) as (p1 & -> & I1 & E1 & S1 & _).
    intros H. specialize (S1 S).
    rewrite <- E1 in S1 |- *. destruct (IH p1 I1 S1 H) as (E & I' & S').
    auto.
Qed.

(** X24. Once the start-up has returned in a process that had no
    socket and no pending timeout, whatever events follow, the process
    keeps a single connection, and every socket has been sent the
    subscription when it opened and nothing else. *)
Theorem started_process_keeps_single_connection p p0 events p' :
  sockets p = [] ->
  timeouts p = [] ->
  app_listen clock pg_accepts pg_database_size pg_answers pg_message exn_message rev p
  = (Done tt, p0) ->
  play clock pg_accepts pg_database_size JSON_parse JSON_stringify rev events p0
  = Some p' ->
  single_connection p'
  /\ subscribed (JSON_stringify (subscription rev (env p))) p'.
Proof.
  intros Hs Ht Hl Hp.
  destruct (app_listen_cases clock pg_accepts pg_database_size pg_answers pg_message
              exn_message rev p) as (E & T & C).
  rewrite Hl in E, T, C. cbn [fst snd] in E, T, C.
  destruct C as [(F & _)|(_ & K)]; [discriminate F|].
  rewrite Hs in K. rewrite Ht in T. cbn [app] in K.
  assert (I0 : single_connection p0).
  { split.
    - intros i s. rewrite K. destruct i as [|i]; [reflexivity|]. cbn. discriminate.
    - left. split; [exact T|]. rewrite K. eexists. split; reflexivity. }
  assert (S0 : subscribed (JSON_stringify (subscription rev (env p0))) p0).
  { unfold subscribed. rewrite K. constructor; [reflexivity | constructor]. }
  destruct (play_invariant events p0 p' I0 S0 Hp) as (_ & I' & S').
  rewrite E in S'. auto.
Qed.

End Running.

(** ** The routes *)

Global Instance newest_first_transitive : Transitive newest_first.
Proof. unfold newest_first. intros a b c H1 H2. lia. Qed.

Global Instance newest_first_total : Total newest_first.
Proof. unfold newest_first. intros a b. lia. Qed.

Global Instance last_updated_first_transitive : Transitive last_updated_first.
Proof.
  unfold last_updated_first. intros a b c.
  destruct (Vessel.updated_at a), (Vessel.updated_at b), (Vessel.updated_at c);
    try tauto. lia.
Qed.

Global Instance last_updated_first_total : Total last_updated_first.
Proof.
  unfold last_updated_first. intros a b.
  destruct (Vessel.updated_at a), (Vessel.updated_at b); try tauto. lia.
Qed.

(** The first [n] rows in the order of ORDER BY timestamp DESC. *)
Lemma newest_rows (n : nat) (table : list Position.row) :
  let rows := take n (merge_sort newest_first table) in
  length rows = (n `min` length table)%nat
  /\ StronglySorted newest_first rows
  /\ rows ⊆+ table
  /\ (forall x y, x ∈ rows -> y ∈ table -> y ∉ rows ->
                  Position.timestamp y <= Position.timestamp x).
Proof.
  intros rows. subst rows.
  pose proof (merge_sort_Permutation newest_first table) as Hp.
  pose proof (StronglySorted_merge_sort newest_first table) as Hs.
  rewrite <- (take_drop n (merge_sort newest_first table)) in Hs.
  split; [|split; [|split]].
  - rewrite length_take, Hp. reflexivity.
  - eapply StronglySorted_app_1_l. exact Hs.
  - transitivity (merge_sort newest_first table);
      [apply submseteq_take | apply Permutation_submseteq; exact Hp].
  - intros x y Hx Hy Hn. rewrite <- Hp in Hy.
    rewrite <- (take_drop n (merge_sort newest_first table)) in Hy.
    apply elem_of_app in Hy as [Hy|Hy]; [destruct (Hn Hy)|].
    exact (StronglySorted_app_1_elem_of _ _ _ x y Hs Hx Hy).
Qed.

Lemma api_positions_query_eq props :
  api_positions_query (Obj props) =
    Return
      (let limit := or_else (Num (parseInt (field (Obj props) "limit"))) (int 500) in
       if ToBoolean (field (Obj props) "mmsi")
       then ("SELECT * FROM ais_positions WHERE mmsi = $1 ORDER BY timestamp DESC LIMIT $2",
             [field (Obj props) "mmsi"; limit])
       else ("SELECT * FROM ais_positions ORDER BY timestamp DESC LIMIT $1",
             [limit])).
Proof.
  unfold api_positions_query. js_unfold. cbn [get]. cbn beta iota.
  cbn [field]. unfold or_else.
  destruct (ToBoolean (Num (parseInt (own "limit" props))));
    destruct (ToBoolean (own "mmsi" props)); reflexivity.
Qed.

Lemma bound_limit given n :
  given = Undefined /\ n = 500 \/ given = Str (decimal n) /\ 0 < n ->
  or_else (Num (parseInt given)) (int 500) = int n.
Proof.
  intros [[-> ->]|[-> Hn]]; [reflexivity|].
  rewrite (parseInt_decimal n Hn). unfold or_else. cbn [ToBoolean number_truthy].
  assert (Z0 : Qeq_bool (inject_Z n) 0 = false).
  { apply not_true_is_false. intros F. apply Qeq_bool_iff in F.
    unfold Qeq, inject_Z in F. simpl in F. lia. }
  rewrite Z0. reflexivity.
Qed.

Section RouteProperties.

Variable pg_serves : nat -> string -> list value -> bool.
Variable pg_message : nat -> string.
Variable exn_message : exn -> string.
Variable pg_text : value -> option string.
Variable pg_int8 : value -> option Z.
Variable pg_timestamp : value -> option (option Z).

(** X25. When PostgreSQL answers, the history route answers 200 with
    the newest rows first, as many as the limit allows (500 when the
    request has none), all of them rows of the requested mmsi when the
    request has one, and no row it leaves out is newer than one it
    returns; it sends one statement and leaves the tables as they
    are. *)
Theorem api_positions_answers_newest_rows props n p :
  field (Obj props) "limit" = Undefined /\ n = 500
  \/ field (Obj props) "limit" = Str (decimal n) /\ 0 < n ->
  pg_int8 (int n) = Some n ->
  (forall text params, pg_serves (statements p) text params = true) ->
  let mmsi := field (Obj props) "mmsi" in
  let wanted :=
    if ToBoolean mmsi then
      match pg_text mmsi with
      | Some s => filter (fun r => Position.mmsi r = s) (ais_positions (tables p))
      | None => []
      end
    else ais_positions (tables p) in
  let result :=
    api_positions pg_serves pg_message exn_message pg_text pg_int8 pg_timestamp
      (Obj props) p in
  exists rows,
    fst result = Done {| status := 200; body := rows_body (position_rows rows) |}
    /\ tables (snd result) = tables p
    /\ statements (snd result) = S (statements p)
    /\ length rows = (Z.to_nat n `min` length wanted)%nat
    /\ StronglySorted newest_first rows
    /\ rows ⊆+ wanted
    /\ (forall x y, x ∈ rows -> y ∈ wanted -> y ∉ rows ->
                    Position.timestamp y <= Position.timestamp x).
Proof.
  intros Hl Hi Hs mmsi wanted result. subst result.
  assert (Hn : 0 <= n) by (destruct Hl as [[_ ->]|[_ H]]; lia).
  unfold api_positions, try_catchP, bindP, evalP.
  rewrite api_positions_query_eq, (bound_limit _ _ Hl). fold mmsi. cbv zeta.
  unfold pool_query_rows. rewrite Hs.
  exists (take (Z.to_nat n) (merge_sort newest_first wanted)).
  assert (E : select_rows pg_text pg_int8 pg_timestamp
                (fst (if ToBoolean mmsi
                      then ("SELECT * FROM ais_positions WHERE mmsi = $1 ORDER BY timestamp DESC LIMIT $2",
                            [mmsi; int n])
                      else ("SELECT * FROM ais_positions ORDER BY timestamp DESC LIMIT $1",
                            [int n])))
                (snd (if ToBoolean mmsi
                      then ("SELECT * FROM ais_positions WHERE mmsi = $1 ORDER BY timestamp DESC LIMIT $2",
                            [mmsi; int n])
                      else ("SELECT * FROM ais_positions ORDER BY timestamp DESC LIMIT $1",
                            [int n])))
                (tables p)
              = Some (position_rows (take (Z.to_nat n) (merge_sort newest_first wanted)))).
  { subst wanted. destruct (ToBoolean mmsi); cbn [fst snd];
      unfold select_rows; cbn [String.eqb Ascii.eqb Bool.eqb andb];
      unfold newest; rewrite Hi; destruct (Z.ltb_spec n 0); try lia; reflexivity. }
  rewrite E. cbn [fst snd retP res_json tables statements].
  split; [reflexivity|]. split; [reflexivity|]. split; [reflexivity|].
  apply newest_rows.
Qed.

(** X26. When PostgreSQL answers, the route of the rows since an
    instant answers 200 with exactly the rows ingested after the
    instant, newest first and without a limit; with the empty list when
    the parameter reads as NULL; and it answers 500 when the parameter
    does not read as a timestamp. The route validates nothing itself. *)
Theorem api_positions_since_answers props p :
  (forall text params, pg_serves (statements p) text params = true) ->
  let since := field (Obj props) "since" in
  let result :=
    api_positions_since pg_serves pg_message exn_message pg_text pg_int8 pg_timestamp
      (Obj props) p in
  (forall t,
      pg_timestamp since = Some (Some t) ->
      exists rows,
        fst result = Done {| status := 200; body := rows_body (position_rows rows) |}
        /\ rows ≡ₚ filter (fun r => t < Position.created_at r) (ais_positions (tables p))
        /\ StronglySorted newest_first rows)
  /\ (pg_timestamp since = Some None ->
      fst result = Done {| status := 200; body := rows_body (position_rows []) |})
  /\ (pg_timestamp since = None ->
      fst result = Done {| status := 500;
                           body := error_body (Str (pg_message (statements p))) |}).
Proof.
  intros Hs since result. subst result.
  unfold api_positions_since, try_catchP, bindP, evalP, pool_query_rows.
  js_unfold. cbn [get]. fold (field (Obj props) "since"). fold since. rewrite Hs.
  unfold select_rows. cbn [String.eqb Ascii.eqb Bool.eqb andb].
  split; [|split].
  - intros t ->. eexists. split; [reflexivity|]. split.
    + apply merge_sort_Permutation.
    + apply StronglySorted_merge_sort; apply _.
  - intros ->. reflexivity.
  - intros ->. reflexivity.
Qed.

(** X27. When PostgreSQL answers, the vessels route answers 200 with
    every vessel row exactly once, the most recently updated first. *)
Theorem api_vessels_answers_every_vessel p :
  (forall text params, pg_serves (statements p) text params = true) ->
  let result :=
    api_vessels pg_serves pg_message exn_message pg_text pg_int8 pg_timestamp p in
  exists rows,
    fst result = Done {| status := 200; body := rows_body (vessel_rows rows) |}
    /\ rows ≡ₚ snd <$> map_to_list (vessels (tables p))
    /\ (forall r, r ∈ rows <-> exists k, vessels (tables p) !! k = Some r)
    /\ StronglySorted last_updated_first rows.
Proof.
  intros Hs result. subst result.
  unfold api_vessels, try_catchP, bindP, pool_query_rows. rewrite Hs.
  unfold select_rows. cbn [String.eqb Ascii.eqb Bool.eqb andb].
  eexists. split; [reflexivity|]. split; [apply merge_sort_Permutation|]. split.
  - intros r. rewrite merge_sort_Permutation, list_elem_of_fmap. split.
    + intros ([k v] & -> & H). exists k. apply elem_of_map_to_list. exact H.
    + intros (k & H). exists (k, r). split; [reflexivity|].
      apply elem_of_map_to_list. exact H.
  - apply StronglySorted_merge_sort; apply _.
Qed.


(** X29. A negative limit makes the history route answer 500: the
    route binds it as it is, and PostgreSQL refuses a negative LIMIT. *)
Theorem api_positions_negative_limit_is_an_error props n p :
  0 < n ->
  field (Obj props) "limit" = Str ("-" ++ decimal n)%string ->
  pg_int8 (int (- n)) = Some (- n) ->
  let result :=
    api_positions pg_serves pg_message exn_message pg_text pg_int8 pg_timestamp
      (Obj props) p in
  fst result = Done {| status := 500;
                       body := error_body (Str (pg_message (statements p))) |}
  /\ statements (snd result) = S (statements p).
Proof.
  intros Hn Hl Hi result. subst result.
  unfold api_positions, try_catchP, bindP, evalP.
  rewrite api_positions_query_eq, Hl, (parseInt_negative_decimal n Hn).
  assert (E : or_else (Num (Fin (inject_Z (- n)))) (int 500) = int (- n)).
  { unfold or_else. cbn [ToBoolean number_truthy].
    assert (Z0 : Qeq_bool (inject_Z (- n)) 0 = false).
    { apply not_true_is_false. intros F. apply Qeq_bool_iff in F.
      unfold Qeq, inject_Z in F. simpl in F. lia. }
    rewrite Z0. reflexivity. }
  rewrite E. cbv zeta. unfold pool_query_rows.
  destruct (ToBoolean (field (Obj props) "mmsi")); cbn [fst snd];
    (destruct (pg_serves (statements p) _ _); [|split; reflexivity]);
    unfold select_rows; cbn [String.eqb Ascii.eqb Bool.eqb andb];
    unfold newest; rewrite Hi; destruct (Z.ltb_spec (- n) 0); try lia;
    split; reflexivity.
Qed.

End RouteProperties.

(** ** The properties at concrete inputs *)





Lemma onMessage_keeps_vessels_named_witness :
  named
    (db (snd (onMessage sample_clock accept_all size_below
                (fun _ => Some (cape_town_report None)) part_001 "" fresh_world))).
Proof.
  apply onMessage_keeps_vessels_named.
  intros k r H. cbn in H. rewrite lookup_empty in H. discriminate H.
Defined.


Lemma cleanupOldData_leaves_no_old_row_witness :
  noon - hours 48 <= Position.created_at (history_row 2 (noon - hours 1)).
Proof.
  apply (cleanupOldData_leaves_no_old_row (fun _ => noon) accept_all size_below
           world_72h_1h (history_row 2 (noon - hours 1))).
  - reflexivity.
  - vm_compute. constructor.
Defined.

Lemma cleanupOldData_age_step_rejected_witness :
  cleanupOldData sample_clock reject_all size_above world_72h_1h
  = (Return tt,
     {| db := db world_72h_1h; tx := 1;
        console := [log "Running data cleanup..." [];
                    error "Cleanup error:" DatabaseError] |}).
Proof.
  exact (cleanupOldData_age_step_rejected sample_clock reject_all size_above
           world_72h_1h eq_refl).
Defined.


Lemma connectWithRetry_returns_at_first_answer_witness :
  let result :=
    connectWithRetry (answers_from 2) refused exception_name 5 3000 (boot railway) in
  fst result = Done tt
  /\ statements (snd result) = 3%nat
  /\ sleeps (snd result) = [3000; 3000]
  /\ tables (snd result) = empty_database
  /\ sockets (snd result) = [].
Proof.
  apply (connectWithRetry_returns_at_first_answer (answers_from 2) refused
           exception_name 5 3000 2 (boot railway)).
  - lia.
  - intros j Hj. destruct j as [|[|j]]; [reflexivity | reflexivity | lia].
  - reflexivity.
Defined.

Lemma connectWithRetry_gives_up_witness :
  let result :=
    connectWithRetry (answers_from 5) refused exception_name 5 3000 (boot railway) in
  fst result = Raise (Error "Failed to connect after 5 attempts")
  /\ Z.of_nat (statements (snd result)) = 5
  /\ sleeps (snd result) = [3000; 3000; 3000; 3000]
  /\ tables (snd result) = empty_database
  /\ sockets (snd result) = [].
Proof.
  apply (connectWithRetry_gives_up (answers_from 5) refused exception_name 5 3000
           (boot railway)).
  - lia.
  - intros j Hj. cbn [boot statements]. unfold answers_from.
    apply Nat.leb_gt. lia.
Defined.

Lemma app_listen_missing_variable_witness :
  let result :=
    app_listen sample_clock accept_all size_below (answers_from 0) refused
      exception_name index_js (boot no_database) in
  fst result = Exit 1
  /\ statements (snd result) = 0%nat
  /\ sockets (snd result) = []
  /\ tables (snd result) = empty_database.
Proof.
  apply (app_listen_missing_variable sample_clock accept_all size_below
           (answers_from 0) refused exception_name index_js (boot no_database)).
  left. reflexivity.
Defined.

Lemma app_listen_database_down_witness :
  let retrying :=
    app_listen sample_clock accept_all size_below (answers_from 5) refused
      exception_name part_001 (boot railway) in
  let direct :=
    app_listen sample_clock accept_all size_below (answers_from 5) refused
      exception_name index_js (boot railway) in
  (fst retrying = Exit 1
   /\ statements (snd retrying) = 5%nat
   /\ sleeps (snd retrying) = [3000; 3000; 3000; 3000]
   /\ sockets (snd retrying) = [])
  /\ (fst direct = Exit 1
      /\ statements (snd direct) = 1%nat
      /\ sleeps (snd direct) = []
      /\ sockets (snd direct) = []).
Proof.
  apply (app_listen_database_down sample_clock accept_all size_below (answers_from 5)
           refused exception_name (boot railway)).
  - reflexivity.
  - reflexivity.
  - intros j Hj. cbn [boot statements]. unfold answers_from.
    apply Nat.leb_gt. lia.
Defined.

Lemma connecting_single_connection : single_connection connecting.
Proof.
  split.
  - intros i s H _. destruct i as [|i]; [reflexivity | discriminate H].
  - left. split; [reflexivity|]. eexists. split; reflexivity.
Defined.

Lemma react_keeps_single_connection_witness :
  let result :=
    react sample_clock accept_all size_below (fun _ => Some (cape_town_report None))
      stringify_sample index_js (closes 0) connecting in
  fst result = Done tt /\ single_connection (snd result).
Proof.
  apply (react_keeps_single_connection sample_clock accept_all size_below
           (fun _ => Some (cape_town_report None)) stringify_sample index_js
           (closes 0) connecting).
  - exact connecting_single_connection.
  - reflexivity.
Defined.

Lemma subscription_goes_to_the_socket_that_opens_witness :
  exists s',
    sockets (snd (react sample_clock accept_all size_below
                    (fun _ => Some (cape_town_report None)) stringify_sample index_js
                    (opens 0) connecting)) !! 0%nat = Some s'
    /\ frames s' = ["subscription"].
Proof.
  apply (subscription_goes_to_the_socket_that_opens sample_clock accept_all size_below
           (fun _ => Some (cape_town_report None)) stringify_sample index_js
           (opens 0) connecting 0%nat
           {| url := "wss://stream.aisstream.io/v0/stream";
              readyState := CONNECTING; frames := [] |}).
  - exact connecting_single_connection.
  - reflexivity.
  - reflexivity.
Defined.

Lemma health_reports_the_connection_witness :
  snd (health connecting) = connecting
  /\ exists connected,
       fst (health connecting)
       = Done {| status := 200; body := health_body connected |}
       /\ (connected = true <->
           exists s, s ∈ sockets connecting /\ readyState s = OPEN).
Proof.
  apply (health_reports_the_connection connecting).
  exact connecting_single_connection.
Defined.

Lemma started_process_keeps_single_connection_witness :
  let started :=
    snd (app_listen sample_clock accept_all size_below (answers_from 0) refused
           exception_name part_001 (boot railway)) in
  let later :=
    default started
      (play sample_clock accept_all size_below (fun _ => Some (cape_town_report None))
         stringify_sample part_001 reconnection started) in
  single_connection later
  /\ subscribed (stringify_sample (subscription part_001 railway)) later.
Proof.
  cbv zeta.
  apply (started_process_keeps_single_connection sample_clock accept_all size_below
           (answers_from 0) refused exception_name
           (fun _ => Some (cape_town_report None)) stringify_sample part_001
           (boot railway)
           (snd (app_listen sample_clock accept_all size_below (answers_from 0) refused
                   exception_name part_001 (boot railway)))
           reconnection).
  - reflexivity.
  - reflexivity.
  - vm_compute. reflexivity.
  - vm_compute. reflexivity.
Defined.

Lemma api_positions_answers_newest_rows_witness :
  exists rows,
    fst (api_positions serve_all refused exception_name sample_text sample_int8
           sample_timestamp (Obj [("limit", Str "2")]) (serving world_eleven_rows))
    = Done {| status := 200; body := rows_body (position_rows rows) |}
    /\ length rows = 2%nat.
Proof.
  destruct (api_positions_answers_newest_rows serve_all refused exception_name
              sample_text sample_int8 sample_timestamp [("limit", Str "2")] 2
              (serving world_eleven_rows))
    as (rows & R & _ & _ & L & _).
  - right. split; [reflexivity | lia].
  - reflexivity.
  - reflexivity.
  - exists rows. split; [exact R | exact L].
Defined.

Lemma api_positions_since_answers_witness :
  exists rows,
    fst (api_positions_since serve_all refused exception_name sample_text sample_int8
           sample_timestamp (Obj [("since", Str "2024-05-01T09:00:00Z")])
           (serving world_eleven_rows))
    = Done {| status := 200; body := rows_body (position_rows rows) |}
    /\ rows ≡ₚ filter (fun r => noon - hours 3 < Position.created_at r)
                 (ais_positions (db world_eleven_rows)).
Proof.
  destruct (api_positions_since_answers serve_all refused exception_name sample_text
              sample_int8 sample_timestamp [("since", Str "2024-05-01T09:00:00Z")]
              (serving world_eleven_rows) (fun _ _ => eq_refl))
    as (A & _).
  destruct (A (noon - hours 3) eq_refl) as (rows & R & Hp & _).
  exists rows. split; [exact R | exact Hp].
Defined.

Lemma api_vessels_answers_every_vessel_witness :
  exists rows,
    fst (api_vessels serve_all refused exception_name sample_text sample_int8
           sample_timestamp (serving world_with_vessel))
    = Done {| status := 200; body := rows_body (vessel_rows rows) |}
    /\ (forall r, r ∈ rows <-> exists k, vessels (db world_with_vessel) !! k = Some r).
Proof.
  destruct (api_vessels_answers_every_vessel serve_all refused exception_name
              sample_text sample_int8 sample_timestamp (serving world_with_vessel)
              (fun _ _ => eq_refl))
    as (rows & R & _ & E & _).
  exists rows. split; [exact R | exact E].
Defined.


Lemma api_positions_negative_limit_is_an_error_witness :
  let result :=
    api_positions serve_all negative_limit exception_name sample_text sample_int8
      sample_timestamp (Obj [("limit", Str "-5")]) (serving world_eleven_rows) in
  fst result = Done {| status := 500;
                       body := error_body (Str "LIMIT must not be negative") |}
  /\ statements (snd result) = 1%nat.
Proof.
  apply (api_positions_negative_limit_is_an_error serve_all negative_limit exception_name
           sample_text sample_int8 sample_timestamp [("limit", Str "-5")] 5
           (serving world_eleven_rows)).
  - lia.
  - reflexivity.
  - reflexivity.
Defined.
